(** * Deployment of a Solana program through a remote-custody signer

    A shallow embedding of [deployProgram] and [addLog] of
    [src/components/deploy/index.tsx], and the properties of the chunked
    upload protocol it implements.

    - Buffers are lists of bytes; [slice], [alloc], [writeUInt32LE] and
      [copy] follow the JavaScript [Buffer] methods the component calls.
    - The component's asynchronous body is sequential code: it is written in
      a small monad that returns either a value or the text of the thrown
      error, together with the effects performed, in order.
    - React state is only ever written by the component, through
      [setDeploymentStatus]; each call is recorded as an update and the
      state is obtained by replaying the updates in order.
    - Everything outside the component (the Fireblocks connection adapter,
      the ledger, key generation and signing) is an environment of oracles;
      the check [new PublicKey(text)] makes on its text is computed. *)

From Stdlib Require Import String Ascii List Arith Lia ZArith Bool DecimalString.
From Stdlib.Strings Require Import Byte.
From Equations Require Import Equations.
Import ListNotations.

Set Implicit Arguments.
Local Open Scope string_scope.
Local Open Scope list_scope.

(** ** Buffers *)

Module Buffer.

Definition t := list byte.

(** [Buffer.alloc(size)]: a zero-filled buffer. *)
Definition alloc (size : nat) : t := repeat x00 size.

(** [buf.slice(start, end)], both ends clamped to the buffer. *)
Definition slice (buf : t) (start end_ : nat) : t :=
  firstn (end_ - start) (skipn start buf).

(** Storing a number into a byte cell keeps its low eight bits. *)
Definition byte_of_Z (z : Z) : byte :=
  match Byte.of_N (Z.to_N (Z.land z 255)) with
  | Some b => b
  | None => x00
  end.

Definition Z_of_byte (b : byte) : Z := Z.of_N (Byte.to_N b).

(** [buf.writeUInt32LE(value, offset)]: range-checked, little-endian.
    [None] stands for the [RangeError] the method throws. *)
Definition writeUInt32LE (buf : t) (value : Z) (offset : nat) : option t :=
  if ((0 <=? value)%Z && (value <=? 4294967295)%Z && (offset + 4 <=? length buf)%nat)%bool
  then Some (firstn offset buf
             ++ [ byte_of_Z value;
                  byte_of_Z (Z.shiftr value 8);
                  byte_of_Z (Z.shiftr value 16);
                  byte_of_Z (Z.shiftr value 24) ]
             ++ skipn (offset + 4) buf)
  else None.

(** [buf.readUInt32LE(offset)], the reading counterpart, used by whoever
    decodes a payload. *)
Definition readUInt32LE (buf : t) (offset : nat) : option Z :=
  match skipn offset buf with
  | b0 :: b1 :: b2 :: b3 :: _ =>
      Some (Z_of_byte b0 + 256 * Z_of_byte b1
            + 65536 * Z_of_byte b2 + 16777216 * Z_of_byte b3)%Z
  | _ => None
  end.

(** [source.copy(target, targetStart)]: as many bytes as fit. *)
Definition copy (source target : t) (targetStart : nat) : t :=
  let n := Nat.min (length source) (length target - targetStart) in
  firstn targetStart target ++ firstn n source ++ skipn (targetStart + n) target.

End Buffer.

(** JavaScript template literals and number rendering. *)
Definition template (parts : list string) : string := String.concat "" parts.
Definition showNat (n : nat) : string := NilEmpty.string_of_uint (Nat.to_uint n).

(** ** Ledger data: keys, instructions, transactions *)

(** A public key is kept by its base58 text. [new PublicKey(text)] decodes
    the text and throws unless it gives 32 bytes ([wellFormed] below); a
    text it accepts is the base58 text of its bytes, so [toBase58()] gives
    it back. *)
Record PublicKey := { toBase58 : string }.

(** Base58 texts, as far as the constructor looks at them: the number of
    bytes a text decodes to. Each leading '1' stands for one zero byte; the
    other characters are the digits of a number, decoded to its shortest
    big-endian byte string. *)
Module Base58.

Definition alphabet : string :=
  "123456789ABCDEFGHJKLMNPQRSTUVWXYZabcdefghijkmnopqrstuvwxyz".

Fixpoint indexOf (c : ascii) (s : string) (i : N) : option N :=
  match s with
  | EmptyString => None
  | String c' rest => if Ascii.eqb c c' then Some i else indexOf c rest (i + 1)%N
  end.

Definition digit (c : ascii) : option N := indexOf c alphabet 0.

(** The value of a digit string, most significant digit first; [None] when
    a character is not in the alphabet. *)
Fixpoint value (s : string) (acc : N) : option N :=
  match s with
  | EmptyString => Some acc
  | String c rest =>
      match digit c with
      | Some d => value rest (acc * 58 + d)%N
      | None => None
      end
  end.

Fixpoint leadingOnes (s : string) : nat :=
  match s with
  | String "1" rest => S (leadingOnes rest)
  | _ => 0
  end.

Definition byteLength (n : N) : nat :=
  match n with
  | N0 => 0
  | _ => S (N.to_nat (N.log2 n / 8))
  end.

Definition decodedLength (s : string) : option nat :=
  match value s 0 with
  | Some n => Some (leadingOnes s + byteLength n)
  | None => None
  end.

End Base58.

Definition PUBLIC_KEY_LENGTH : nat := 32.

(** The texts [new PublicKey(text)] accepts. *)
Definition wellFormed (text : string) : bool :=
  match Base58.decodedLength text with
  | Some n => (n =? PUBLIC_KEY_LENGTH)%nat
  | None => false
  end.

Record Keypair := { publicKey : PublicKey; secretKey : Buffer.t }.

Record AccountMeta := { pubkey : PublicKey; isSigner : bool; isWritable : bool }.

Record TransactionInstruction := {
  keys : list AccountMeta;
  ixProgramId : PublicKey;
  data : Buffer.t
}.

(** [SystemProgram.createAccount] builds a system instruction whose byte
    layout belongs to the ledger library; it is kept by its parameters. *)
Record CreateAccountParams := {
  fromPubkey : PublicKey;
  newAccountPubkey : PublicKey;
  lamports : N;
  space : nat;
  ownerProgramId : PublicKey
}.

Inductive Instruction :=
| SystemCreateAccount (p : CreateAccountParams)
| LoaderInstruction (ix : TransactionInstruction).

(** A transaction: its instructions and the keys that signed it locally
    (through [partialSign]). *)
Record Transaction := {
  instructions : list Instruction;
  signatures : list PublicKey
}.

Definition newTransaction : Transaction := {| instructions := []; signatures := [] |}.

Definition add (tx : Transaction) (ix : Instruction) : Transaction :=
  {| instructions := instructions tx ++ [ix]; signatures := signatures tx |}.

Definition BPF_LOADER_PROGRAM_ID : PublicKey :=
  {| toBase58 := "BPFLoader2111111111111111111111111111111111" |}.

(** [new PublicKey("SysvarRent111111111111111111111111111111111")]
    (line 296): a text the constructor accepts, see
    [SYSVAR_RENT_wellFormed]. *)
Definition SYSVAR_RENT : PublicKey :=
  {| toBase58 := "SysvarRent111111111111111111111111111111111" |}.


(** ** Component state *)

Inductive Status := idle | deploying | success | error.

Record DeploymentStatus := {
  status : Status;
  message : string;
  logs : list string;
  programId : option string
}.

Record Toast := {
  title : string;
  description : string;
  toastStatus : string;
  duration : nat;
  isClosable : bool
}.

Inductive FeeLevel := HIGH | MEDIUM | LOW.

Record FireblocksConnectionAdapterConfig := {
  cfgApiKey : string;
  cfgApiSecretPath : string;
  cfgVaultAccountId : string;
  cfgFeeLevel : FeeLevel;
  cfgSilent : bool;
  cfgDevnet : bool
}.

(** The connection object, as far as the component uses its data. *)
Record Connection := { getAccount : string }.

(** ** Results, effects, and the monad of the asynchronous body *)

(** [inl text]: an exception was thrown, rendered as
    [error instanceof Error ? error.message : String(error)]. *)
Definition Result (A : Type) : Type := (string + A)%type.

(** A state update handed to [setDeploymentStatus]. *)
Inductive Update :=
| SetTo (s : DeploymentStatus)      (* setDeploymentStatus(value) *)
| AppendLog (log : string).         (* setDeploymentStatus(prev => ...), see addLog *)

Inductive Event :=
| EvToast (t : Toast)
| EvUpdate (u : Update)
| EvConsoleError (text : string)
| EvCreateConnection (endpoint : string) (cfg : FireblocksConnectionAdapterConfig)
                     (r : Result Connection)
| EvSetTxNote (note : string)
| EvGetMinimumBalance (dataLength : nat) (r : Result N)
| EvSend (tx : Transaction) (signers : list Keypair) (r : Result string).

Definition M (A : Type) : Type := (Result A * list Event)%type.

Definition ret {A} (a : A) : M A := (inr a, []).

Definition throw {A} (text : string) : M A := (inl text, []).

Definition emit (e : Event) : M unit := (inr tt, [e]).

Definition bind {A B} (m : M A) (k : A -> M B) : M B :=
  match m with
  | (inl text, evs) => (inl text, evs)
  | (inr a, evs) => let (r, evs') := k a in (r, evs ++ evs')
  end.

Definition andThen {B} (m : M unit) (k : M B) : M B := bind m (fun _ => k).

(** [try { m } catch (error) { handler error }] *)
Definition tryCatch {A} (m : M A) (handler : string -> M A) : M A :=
  match m with
  | (inl text, evs) => let (r, evs') := handler text in (r, evs ++ evs')
  | (inr a, evs) => (inr a, evs)
  end.

Declare Scope deploy_scope.
Delimit Scope deploy_scope with deploy.
Notation "x <- m ;; k" := (bind m (fun x => k))
  (at level 61, m at next level, right associativity) : deploy_scope.
Notation "m ;; k" := (andThen m k)
  (at level 61, right associativity) : deploy_scope.
Local Open Scope deploy_scope.

(** Replaying the updates gives the React state. *)
Definition applyUpdate (prev : DeploymentStatus) (u : Update) : DeploymentStatus :=
  match u with
  | SetTo s => s
  | AppendLog log =>
      {| status := status prev; message := message prev;
         logs := logs prev ++ [log]; programId := programId prev |}
  end.

Definition applyEvent (prev : DeploymentStatus) (e : Event) : DeploymentStatus :=
  match e with
  | EvUpdate u => applyUpdate prev u
  | _ => prev
  end.

Definition replay (evs : list Event) (init : DeploymentStatus) : DeploymentStatus :=
  fold_left applyEvent evs init.

(** ** The environment *)

(** What the component cannot decide by itself. An answer [inl text] (or
    [Some text] for the two [...Rejected] fields) is a thrown error.
    - [adapterCreate]: [FireblocksConnectionAdapter.create(endpoint, config)];
    - [publicKeyErrorText]: the message of the error [new PublicKey(text)]
      throws on a text it does not accept (line 162);
    - [keypairRejected]: whether [new Keypair({publicKey, secretKey})]
      throws on the wallet-derived key (line 171);
    - [keypairGenerate]: the result of [Keypair.generate()];
    - [minimumBalance]: [connection.getMinimumBalanceForRentExemption(n)];
    - [partialSignRejected]: whether [transaction.partialSign(signer)] throws;
    - [sendAndConfirm]: [sendAndConfirmTransaction(connection, tx, signers)],
      the transaction hash once confirmed;
    - [rangeErrorText]: the message of the [RangeError] of [writeUInt32LE];
    - [showSol]: the decimal text of a lamport amount divided by
      [LAMPORTS_PER_SOL], a floating-point number. *)
Record Env := {
  adapterCreate : string -> FireblocksConnectionAdapterConfig -> Result Connection;
  publicKeyErrorText : string -> string;
  keypairRejected : option string;
  keypairGenerate : Keypair;
  minimumBalance : nat -> Result N;
  partialSignRejected : Transaction -> Keypair -> option string;
  sendAndConfirm : Transaction -> list Keypair -> Result string;
  rangeErrorText : string;
  showSol : N -> string
}.

(** The values captured by the [deployProgram] closure of one render: the
    configuration constants, the form state, and [deploymentStatus], the
    status as it was when the closure was created. *)
Record DeployView := {
  apiKey : option string;
  apiSecretPath : option string;
  vaultAccountId : option string;
  programPath : string;
  programData : option Buffer.t;
  deploymentStatus : DeploymentStatus
}.

(** JavaScript truthiness of an environment string. *)
Definition falsy (s : option string) : bool :=
  match s with
  | None => true
  | Some s => String.eqb s ""
  end.

Definition stringOf (s : option string) : string :=
  match s with
  | Some s => s
  | None => ""
  end.

Definition isNull {A} (o : option A) : bool :=
  match o with
  | None => true
  | Some _ => false
  end.

Definition feeLevel : FeeLevel := MEDIUM.
Definition isDevnet : bool := true.
Definition isSilent : bool := false.
Definition chunkSize : nat := 900.

Definition clusterApiUrl (cluster : string) : string :=
  template ["https://api."; cluster; ".solana.com"].

Definition clusterName : string := if isDevnet then "devnet" else "mainnet".

Definition explorerUrl (txHash : string) : string :=
  template ["https://explorer.solana.com/tx/"; txHash; "?cluster="; clusterName].

(** ** The component's functions *)

Definition setDeploymentStatus (s : DeploymentStatus) : M unit := emit (EvUpdate (SetTo s)).

Definition addLog (log : string) : M unit := emit (EvUpdate (AppendLog log)).

Definition toast (t : Toast) : M unit := emit (EvToast t).

(** The payload of the write transaction of one chunk
    ([dataLayout], lines 250-253). *)
Definition writeData (offset : nat) (chunk : Buffer.t) : option Buffer.t :=
  let dataLayout := Buffer.alloc (4 + 4 + length chunk) in
  match Buffer.writeUInt32LE dataLayout 0 0 with
  | None => None
  | Some dataLayout =>
      match Buffer.writeUInt32LE dataLayout (Z.of_nat offset) 4 with
      | None => None
      | Some dataLayout => Some (Buffer.copy chunk dataLayout 8)
      end
  end.

Definition writeInstruction (programKeypair : Keypair) (dataLayout : Buffer.t)
  : TransactionInstruction :=
  {| keys := [ {| pubkey := publicKey programKeypair; isSigner := true; isWritable := true |} ];
     ixProgramId := BPF_LOADER_PROGRAM_ID;
     data := dataLayout |}.

Definition writeTransaction (programKeypair : Keypair) (dataLayout : Buffer.t) : Transaction :=
  add newTransaction (LoaderInstruction (writeInstruction programKeypair dataLayout)).

(** The payload of the finalize transaction ([finalizeData], lines 284-285). *)
Definition finalizeData : option Buffer.t :=
  Buffer.writeUInt32LE (Buffer.alloc 4) 1 0.

Definition finalizeInstruction (programKeypair : Keypair) (finalizeData : Buffer.t)
  : TransactionInstruction :=
  {| keys := [ {| pubkey := publicKey programKeypair; isSigner := true; isWritable := true |};
               {| pubkey := SYSVAR_RENT; isSigner := false; isWritable := false |} ];
     ixProgramId := BPF_LOADER_PROGRAM_ID;
     data := finalizeData |}.

Definition finalizeTransaction (programKeypair : Keypair) (finalizeData : Buffer.t)
  : Transaction :=
  add newTransaction (LoaderInstruction (finalizeInstruction programKeypair finalizeData)).

Section Deploy.

Variable env : Env.

Definition rangeChecked {A} (o : option A) : M A :=
  match o with
  | Some a => ret a
  | None => throw (rangeErrorText env)
  end.

Definition sendAndConfirmTransaction (tx : Transaction) (signers : list Keypair) : M string :=
  let r := sendAndConfirm env tx signers in
  (r, [EvSend tx signers r]).

Definition partialSign (tx : Transaction) (signer : Keypair) : M Transaction :=
  match partialSignRejected env tx signer with
  | Some text => throw text
  | None => ret {| instructions := instructions tx;
                   signatures := signatures tx ++ [publicKey signer] |}
  end.

(** [new PublicKey(text)] *)
Definition newPublicKey (text : string) : M PublicKey :=
  if wellFormed text
  then ret {| toBase58 := text |}
  else throw (publicKeyErrorText env text).

(** The body of the [while] loop of lines 246-279 for one chunk, from the
    payload to the log entry. *)
Definition writeChunk (programKeypair : Keypair) (offset : nat) (chunk : Buffer.t)
  : M unit :=
  dataLayout <- rangeChecked (writeData offset chunk) ;;
  let writeTransaction := writeTransaction programKeypair dataLayout in
  writeTxHash <- sendAndConfirmTransaction writeTransaction [] ;;
  addLog (template ["Wrote chunk at offset "; showNat offset; ": "; explorerUrl writeTxHash]).

(** [while (offset < programData.length) { ...; offset += chunkSize }] *)
Equations? writeLoop (programKeypair : Keypair) (programData : Buffer.t) (offset : nat)
  : M unit by wf (length programData - offset) lt :=
  writeLoop programKeypair programData offset with lt_dec offset (length programData) := {
    | left _ =>
        let chunk := Buffer.slice programData offset (offset + chunkSize) in
        writeChunk programKeypair offset chunk ;;
        writeLoop programKeypair programData (offset + chunkSize)
    | right _ => ret tt }.
Proof. unfold chunkSize. lia. Qed.

(** Lines 129-242 of the [try] block: everything before the loop. It
    hands the program key pair and the program data to the loop. *)
Definition prepare (view : DeployView) : M (Keypair * Buffer.t) :=
  setDeploymentStatus
    {| status := deploying;
       message := "Starting Solana program deployment...";
       logs := ["Starting Solana program deployment..."];
       programId := None |} ;;
  addLog "Configuring Fireblocks connection..." ;;
  let fireblocksConnectionConfig :=
    {| cfgApiKey := stringOf (apiKey view);
       cfgApiSecretPath := stringOf (apiSecretPath view);
       cfgVaultAccountId := stringOf (vaultAccountId view);
       cfgFeeLevel := feeLevel;
       cfgSilent := isSilent;
       cfgDevnet := isDevnet |} in
  addLog (template ["Creating connection to Solana "; clusterName; "..."]) ;;
  let endpoint := if isDevnet then clusterApiUrl "devnet" else clusterApiUrl "mainnet-beta" in
  connection <-
    (let r := adapterCreate env endpoint fireblocksConnectionConfig in
     (r, [EvCreateConnection endpoint fireblocksConnectionConfig r])) ;;
  payerPublicKey <- newPublicKey (getAccount connection) ;;
  addLog (template ["Deployer account: "; toBase58 payerPublicKey]) ;;
  programKeypair <-
    tryCatch
      (programKeypair <-
         match keypairRejected env with
         | Some text => throw text
         | None => ret {| publicKey := payerPublicKey; secretKey := Buffer.alloc 64 |}
         end ;;
       addLog (template ["Using connected wallet as program keypair: ";
                         toBase58 (publicKey programKeypair)]) ;;
       ret programKeypair)
      (fun _ =>
         addLog "Unable to use connected wallet as program keypair, generating new one..." ;;
         let programKeypair := keypairGenerate env in
         addLog (template ["Generated new program keypair: ";
                           toBase58 (publicKey programKeypair)]) ;;
         ret programKeypair) ;;
  addLog (template ["Checking program file: "; programPath view; "..."]) ;;
  programData <-
    match programData view with
    | None => throw "Program data not available. Please upload a program file."
    | Some programData => ret programData
    end ;;
  addLog (template ["Program size: "; showNat (length programData); " bytes"]) ;;
  emit (EvSetTxNote "Deploying Solana program with Fireblocks Connection Adapter") ;;
  minimumBalanceForRentExemption <-
    (let r := minimumBalance env (length programData) in
     (r, [EvGetMinimumBalance (length programData) r])) ;;
  addLog (template ["Minimum balance for rent exemption: ";
                    showSol env minimumBalanceForRentExemption; " SOL"]) ;;
  addLog "Deploying program..." ;;
  addLog "Creating program account..." ;;
  let createAccountTransaction :=
    add newTransaction
      (SystemCreateAccount
         {| fromPubkey := payerPublicKey;
            newAccountPubkey := publicKey programKeypair;
            lamports := minimumBalanceForRentExemption;
            space := length programData;
            ownerProgramId := BPF_LOADER_PROGRAM_ID |}) in
  createAccountTransaction <- partialSign createAccountTransaction programKeypair ;;
  createAccountTxHash <- sendAndConfirmTransaction createAccountTransaction [] ;;
  addLog (template ["Program account created: "; explorerUrl createAccountTxHash]) ;;
  addLog "Writing program data in chunks..." ;;
  ret (programKeypair, programData).

(** The status set on success (lines 319-327); its log is built from the
    captured [deploymentStatus]. *)
Definition successStatus (view : DeployView) (programKeypair : Keypair) : DeploymentStatus :=
  {| status := success;
     message := "Program deployment completed successfully!";
     logs := logs (deploymentStatus view) ++ ["Program deployment completed successfully!"];
     programId := Some (toBase58 (publicKey programKeypair)) |}.

(** Lines 281-335 of the [try] block: everything after the loop. *)
Definition finalize (view : DeployView) (programKeypair : Keypair) : M unit :=
  addLog "Finalizing program..." ;;
  finalizeData <- rangeChecked finalizeData ;;
  let finalizeTransaction := finalizeTransaction programKeypair finalizeData in
  finalizeTxHash <- sendAndConfirmTransaction finalizeTransaction [] ;;
  addLog (template ["Program finalized: "; explorerUrl finalizeTxHash]) ;;
  setDeploymentStatus (successStatus view programKeypair) ;;
  toast {| title := "Deployment successful";
           description := template ["Program deployed with ID: ";
                                    toBase58 (publicKey programKeypair)];
           toastStatus := "success";
           duration := 5000;
           isClosable := true |}.

(** The [try] block of [deployProgram], lines 128-335. *)
Definition deployBody (view : DeployView) : M unit :=
  prepared <- prepare view ;;
  let (programKeypair, programData) := prepared in
  writeLoop programKeypair programData 0 ;;
  finalize view programKeypair.

(** The status set on failure (lines 338-345); its log is built from the
    captured [deploymentStatus]. *)
Definition errorStatus (view : DeployView) (errorText : string) : DeploymentStatus :=
  {| status := error;
     message := template ["Error deploying program: "; errorText];
     logs := logs (deploymentStatus view) ++ [template ["Error: "; errorText]];
     programId := None |}.

(** The [catch] block of [deployProgram], lines 336-354. *)
Definition deployCatch (view : DeployView) (errorText : string) : M unit :=
  emit (EvConsoleError errorText) ;;
  setDeploymentStatus (errorStatus view errorText) ;;
  toast {| title := "Deployment failed";
           description := errorText;
           toastStatus := "error";
           duration := 5000;
           isClosable := true |}.

Definition deployProgram (view : DeployView) : M unit :=
  if (falsy (apiKey view) || falsy (apiSecretPath view)
      || falsy (vaultAccountId view) || isNull (programData view))%bool
  then
    toast {| title := "Missing required fields";
             description := "Please fill in all required fields and upload a program file";
             toastStatus := "error";
             duration := 5000;
             isClosable := true |}
  else
    tryCatch (deployBody view) (deployCatch view).

(** The component state once every update of the run is applied. *)
Definition stateAfter (view : DeployView) (init : DeploymentStatus) : DeploymentStatus :=
  replay (snd (deployProgram view)) init.

End Deploy.

(** ** The chunks of a program blob *)

(** The [(offset, chunk)] pairs the loop of lines 244-279 goes through: the
    same guard, the same [slice] and the same increment as [writeLoop],
    without the effects. [writeLoop_chunks] below relates the two. *)
Equations? chunks (programData : Buffer.t) (offset : nat) : list (nat * Buffer.t)
  by wf (length programData - offset) lt :=
  chunks programData offset with lt_dec offset (length programData) := {
    | left _ =>
        (offset, Buffer.slice programData offset (offset + chunkSize))
          :: chunks programData (offset + chunkSize)
    | right _ => [] }.
Proof. unfold chunkSize. lia. Qed.

(** Running the loop body over a list of chunks, in order. *)
Fixpoint writeAll (env : Env) (programKeypair : Keypair) (cs : list (nat * Buffer.t))
  : M unit :=
  match cs with
  | [] => ret tt
  | (offset, chunk) :: cs =>
      writeChunk env programKeypair offset chunk ;; writeAll env programKeypair cs
  end.

(** ** What an observer of the submitted transactions can read *)

(** The payload of a transaction made of one loader instruction. *)
Definition loaderData (tx : Transaction) : option Buffer.t :=
  match instructions tx with
  | [LoaderInstruction ix] => Some (data ix)
  | _ => None
  end.

(** The offset of a write transaction: discriminant 0, then the offset. *)
Definition writeOffsetOf (tx : Transaction) : option nat :=
  match loaderData tx with
  | Some payload =>
      match Buffer.readUInt32LE payload 0, Buffer.readUInt32LE payload 4 with
      | Some 0%Z, Some offset => Some (Z.to_nat offset)
      | _, _ => None
      end
  | None => None
  end.

(** A finalize transaction: discriminant 1. *)
Definition isFinalize (tx : Transaction) : bool :=
  match loaderData tx with
  | Some payload =>
      match Buffer.readUInt32LE payload 0 with
      | Some 1%Z => true
      | _ => false
      end
  | None => false
  end.

(** The little-endian bytes of a 32-bit number. *)
Definition le32 (value : Z) : Buffer.t :=
  [ Buffer.byte_of_Z value;
    Buffer.byte_of_Z (Z.shiftr value 8);
    Buffer.byte_of_Z (Z.shiftr value 16);
    Buffer.byte_of_Z (Z.shiftr value 24) ].

(** The log entry of a confirmed chunk write. *)
Definition wroteChunkLog (offset : nat) (writeTxHash : string) : string :=
  template ["Wrote chunk at offset "; showNat offset; ": "; explorerUrl writeTxHash].

(** ** The shape of a run *)

(** The events of the [catch] block. *)
Definition catchEvents (view : DeployView) (errorText : string) : list Event :=
  [ EvConsoleError errorText;
    EvUpdate (SetTo (errorStatus view errorText));
    EvToast {| title := "Deployment failed"; description := errorText;
               toastStatus := "error"; duration := 5000; isClosable := true |} ].

(** The input check of lines 116-126 lets the run start. *)
Definition validated (view : DeployView) : Prop :=
  falsy (apiKey view) = false /\ falsy (apiSecretPath view) = false
  /\ falsy (vaultAccountId view) = false /\ isNull (programData view) = false.

(** The events before the loop: no loader instruction is submitted, and the
    only status set is "deploying". *)
Definition preludeEvent (ev : Event) : Prop :=
  match ev with
  | EvSend tx _ _ => loaderData tx = None
  | EvUpdate (SetTo st) => status st = deploying
  | _ => True
  end.

Ltac run_monad :=
  unfold sendAndConfirmTransaction, partialSign, newPublicKey, rangeChecked,
    setDeploymentStatus, addLog, toast, andThen;
  unfold emit, ret, throw, tryCatch, bind;
  cbn [app fst snd].

(** Case analysis on the next answer of the environment. *)
Ltac ask env view :=
  match goal with
  | |- context [adapterCreate env ?ep ?cfg] => destruct (adapterCreate env ep cfg) eqn:?
  | |- context [wellFormed ?text] => destruct (wellFormed text) eqn:?
  | |- context [keypairRejected env] => destruct (keypairRejected env) eqn:?
  | |- context [programData view] => destruct (programData view) eqn:?
  | |- context [minimumBalance env ?n] => destruct (minimumBalance env n) eqn:?
  | |- context [partialSignRejected env ?tx ?kp] =>
      destruct (partialSignRejected env tx kp) eqn:?
  | |- context [sendAndConfirm env ?tx ?s] => destruct (sendAndConfirm env tx s) eqn:?
  end;
  cbn [app fst snd].

(** The connection the run obtains, or the error of the adapter. *)
Definition connectionOf (env : Env) (view : DeployView) : Result Connection :=
  adapterCreate env (clusterApiUrl "devnet")
    {| cfgApiKey := stringOf (apiKey view);
       cfgApiSecretPath := stringOf (apiSecretPath view);
       cfgVaultAccountId := stringOf (vaultAccountId view);
       cfgFeeLevel := feeLevel; cfgSilent := isSilent; cfgDevnet := isDevnet |}.

Definition successToast (programKeypair : Keypair) : Toast :=
  {| title := "Deployment successful";
     description := template ["Program deployed with ID: ";
                              toBase58 (publicKey programKeypair)];
     toastStatus := "success"; duration := 5000; isClosable := true |}.

(** ** The write loop, turn by turn *)

(** The write transaction of the chunk at [offset]. *)
Definition chunkTransaction (kp : Keypair) (programData : Buffer.t) (offset : nat)
  : Transaction :=
  writeTransaction kp
    (le32 0 ++ le32 (Z.of_nat offset)
       ++ Buffer.slice programData offset (offset + chunkSize)).

(** [WriteTrace env kp data offset r evs]: entered at [offset], the loop
    ends with result [r] after the events [evs]. *)
Inductive WriteTrace (env : Env) (kp : Keypair) (programData : Buffer.t)
  : nat -> Result unit -> list Event -> Prop :=
| WT_done offset :
    length programData <= offset ->
    WriteTrace env kp programData offset (inr tt) []
| WT_range offset :
    offset < length programData ->
    (4294967295 < Z.of_nat offset)%Z ->
    WriteTrace env kp programData offset (inl (rangeErrorText env)) []
| WT_fail offset e :
    offset < length programData ->
    (Z.of_nat offset <= 4294967295)%Z ->
    sendAndConfirm env (chunkTransaction kp programData offset) [] = inl e ->
    WriteTrace env kp programData offset (inl e)
      [ EvSend (chunkTransaction kp programData offset) [] (inl e) ]
| WT_step offset h r evs :
    offset < length programData ->
    (Z.of_nat offset <= 4294967295)%Z ->
    sendAndConfirm env (chunkTransaction kp programData offset) [] = inr h ->
    WriteTrace env kp programData (offset + chunkSize) r evs ->
    WriteTrace env kp programData offset r
      (EvSend (chunkTransaction kp programData offset) [] (inr h)
         :: EvUpdate (AppendLog (wroteChunkLog offset h)) :: evs).

(** The offsets of the write transactions submitted, in order. *)
Definition writeOffsets (evs : list Event) : list nat :=
  flat_map (fun ev =>
              match ev with
              | EvSend tx _ _ =>
                  match writeOffsetOf tx with
                  | Some o => [o]
                  | None => []
                  end
              | _ => []
              end) evs.

Definition notWriteSend (ev : Event) : Prop :=
  match ev with
  | EvSend tx _ _ => writeOffsetOf tx = None
  | _ => True
  end.

(** ** The five ways a call of [deployProgram] can go *)

Definition missingFieldsToast : Toast :=
  {| title := "Missing required fields";
     description := "Please fill in all required fields and upload a program file";
     toastStatus := "error"; duration := 5000; isClosable := true |}.

Definition finalizeEventsFailed (kp : Keypair) (e : string) : list Event :=
  [ EvUpdate (AppendLog "Finalizing program...");
    EvSend (finalizeTransaction kp (le32 1)) [] (inl e) ].

Definition finalizeEventsOk (view : DeployView) (kp : Keypair) (h : string) : list Event :=
  [ EvUpdate (AppendLog "Finalizing program...");
    EvSend (finalizeTransaction kp (le32 1)) [] (inr h);
    EvUpdate (AppendLog (template ["Program finalized: "; explorerUrl h]));
    EvUpdate (SetTo (successStatus view kp));
    EvToast (successToast kp) ].

Inductive Outcome (env : Env) (view : DeployView) : list Event -> Prop :=
| Rejected :
    ~ validated view ->
    Outcome env view [EvToast missingFieldsToast]
| PrepareFailed e P :
    validated view ->
    prepare env view = (inl e, P) ->
    Outcome env view (P ++ catchEvents view e)
| WriteFailed kp programData P W e :
    validated view ->
    prepare env view = (inr (kp, programData), P) ->
    WriteTrace env kp programData 0 (inl e) W ->
    Outcome env view (P ++ W ++ catchEvents view e)
| FinalizeFailed kp programData P W e :
    validated view ->
    prepare env view = (inr (kp, programData), P) ->
    WriteTrace env kp programData 0 (inr tt) W ->
    sendAndConfirm env (finalizeTransaction kp (le32 1)) [] = inl e ->
    Outcome env view (P ++ W ++ finalizeEventsFailed kp e ++ catchEvents view e)
| Succeeded kp programData P W h :
    validated view ->
    prepare env view = (inr (kp, programData), P) ->
    WriteTrace env kp programData 0 (inr tt) W ->
    sendAndConfirm env (finalizeTransaction kp (le32 1)) [] = inr h ->
    Outcome env view (P ++ W ++ finalizeEventsOk view kp h).

(** ** Sample environments and inputs *)

Definition idleStatus : DeploymentStatus :=
  {| status := idle; message := ""; logs := []; programId := None |}.

(** The address of the vault account and the address of a generated key
    pair, in the sample environments. *)
Definition vaultAddress : string := "9WzDXwBbmkg8ZTbNMqUxvQRAyrZzDsGYdLVL9zYtAWWM".
Definition freshAddress : string := "4Nd1mBQtrMJVYVfKf2PJy9NZUZdTAsp7D4xWLs4gDB4T".

(** The key pair built from the vault address (lines 171-174). *)
Definition vaultKeypair : Keypair :=
  {| publicKey := {| toBase58 := vaultAddress |}; secretKey := Buffer.alloc 64 |}.

(** A vault, a key library and a ledger that accept everything. *)
Definition confirmingEnv : Env :=
  {| adapterCreate := fun _ _ => inr {| getAccount := vaultAddress |};
     publicKeyErrorText := fun _ => "Invalid public key input";
     keypairRejected := None;
     keypairGenerate := {| publicKey := {| toBase58 := freshAddress |};
                           secretKey := Buffer.alloc 64 |};
     minimumBalance := fun dataLength => inr ((128 + N.of_nat dataLength) * 6960)%N;
     partialSignRejected := fun _ _ => None;
     sendAndConfirm := fun _ _ => inr "txhash";
     rangeErrorText := "value is out of range";
     showSol := fun _ => "0.01" |}.

(** The same, except that the write at offset 900 is rejected. *)
Definition rejectingEnv : Env :=
  {| adapterCreate := adapterCreate confirmingEnv;
     publicKeyErrorText := publicKeyErrorText confirmingEnv;
     keypairRejected := None;
     keypairGenerate := keypairGenerate confirmingEnv;
     minimumBalance := minimumBalance confirmingEnv;
     partialSignRejected := fun _ _ => None;
     sendAndConfirm := fun tx _ =>
       match writeOffsetOf tx with
       | Some 900 => inl "Transaction rejected by signer"
       | _ => inr "txhash"
       end;
     rangeErrorText := rangeErrorText confirmingEnv;
     showSol := showSol confirmingEnv |}.

(** A freshly mounted view with the configuration present. *)
Definition viewOf (programData : option Buffer.t) : DeployView :=
  {| apiKey := Some "api-key";
     apiSecretPath := Some "secret.key";
     vaultAccountId := Some "0";
     programPath := "program.so";
     programData := programData;
     deploymentStatus := idleStatus |}.

Definition blob (size : nat) : Buffer.t := repeat x01 size.



(** ** Notions used in the statements *)

(** The transactions handed to [sendAndConfirmTransaction], in order, with
    the signers handed along. *)
Definition submissions (evs : list Event) : list (Transaction * list Keypair) :=
  flat_map (fun ev =>
              match ev with
              | EvSend tx signers _ => [(tx, signers)]
              | _ => []
              end) evs.

(** ** Further notions: the stages of a run in detail *)

(** The status every run starts by setting (lines 130-134). *)
Definition resetStatus : DeploymentStatus :=
  {| status := deploying;
     message := "Starting Solana program deployment...";
     logs := ["Starting Solana program deployment..."];
     programId := None |}.

(** The configuration handed to the adapter (lines 138-145). *)
Definition connectionConfig (view : DeployView) : FireblocksConnectionAdapterConfig :=
  {| cfgApiKey := stringOf (apiKey view);
     cfgApiSecretPath := stringOf (apiSecretPath view);
     cfgVaultAccountId := stringOf (vaultAccountId view);
     cfgFeeLevel := feeLevel;
     cfgSilent := isSilent;
     cfgDevnet := isDevnet |}.

(** The account-creation transaction once [partialSign] has been applied
    (lines 218-230). *)
Definition createAccountTransaction
    (payer : PublicKey) (kp : Keypair) (rent : N) (programData : Buffer.t) : Transaction :=
  {| instructions :=
       [ SystemCreateAccount
           {| fromPubkey := payer;
              newAccountPubkey := publicKey kp;
              lamports := rent;
              space := length programData;
              ownerProgramId := BPF_LOADER_PROGRAM_ID |} ];
     signatures := [publicKey kp] |}.

(** The toast of the [catch] block (lines 347-353). *)
Definition failedToast (errorText : string) : Toast :=
  {| title := "Deployment failed"; description := errorText;
     toastStatus := "error"; duration := 5000; isClosable := true |}.

(** Between the connection and the loop the run only logs, sets the
    transaction note, asks for the rent and submits system instructions. *)
Definition quietEvent (ev : Event) : Prop :=
  match ev with
  | EvUpdate (AppendLog _) => True
  | EvSetTxNote _ => True
  | EvGetMinimumBalance _ _ => True
  | EvSend tx _ _ => loaderData tx = None
  | _ => False
  end.

(** An event that neither replaces the status nor shows a toast. *)
Definition runningEvent (ev : Event) : Prop :=
  match ev with
  | EvUpdate (SetTo _) => False
  | EvToast _ => False
  | _ => True
  end.

(** The bytes of the confirmed write transactions, in the order of their
    confirmation: what the ledger holds of the program. *)
Definition writtenBytes (evs : list Event) : Buffer.t :=
  flat_map (fun ev =>
              match ev with
              | EvSend tx _ (inr _) =>
                  match writeOffsetOf tx, loaderData tx with
                  | Some _, Some payload => skipn 8 payload
                  | _, _ => []
                  end
              | _ => []
              end) evs.

(** The results of the submissions, in order. *)
Definition sendResults (evs : list Event) : list (Result string) :=
  flat_map (fun ev =>
              match ev with
              | EvSend _ _ r => [r]
              | _ => []
              end) evs.

Definition confirmed (r : Result string) : Prop := exists h, r = inr h.

(** The same closure with another text in the Program Path field. *)
Definition withProgramPath (view : DeployView) (path : string) : DeployView :=
  {| apiKey := apiKey view;
     apiSecretPath := apiSecretPath view;
     vaultAccountId := vaultAccountId view;
     programPath := path;
     programData := programData view;
     deploymentStatus := deploymentStatus view |}.

(** The Deploy button is disabled while the status is "deploying"
    (line 423). *)
Definition isDisabled (st : DeploymentStatus) : bool :=
  match status st with
  | deploying => true
  | _ => false
  end.

(** An environment whose key library rejects the wallet-derived key pair. *)
Definition fallbackEnv : Env :=
  {| adapterCreate := adapterCreate confirmingEnv;
     publicKeyErrorText := publicKeyErrorText confirmingEnv;
     keypairRejected := Some "bad secret key size";
     keypairGenerate := keypairGenerate confirmingEnv;
     minimumBalance := minimumBalance confirmingEnv;
     partialSignRejected := fun _ _ => None;
     sendAndConfirm := sendAndConfirm confirmingEnv;
     rangeErrorText := rangeErrorText confirmingEnv;
     showSol := showSol confirmingEnv |}.

(** A key library whose [partialSign] throws on every transaction, as the
    one of the ledger library does on a transaction that has no recent
    blockhash; everything else accepts. *)
Definition libraryEnv : Env :=
  {| adapterCreate := adapterCreate confirmingEnv;
     publicKeyErrorText := publicKeyErrorText confirmingEnv;
     keypairRejected := None;
     keypairGenerate := keypairGenerate confirmingEnv;
     minimumBalance := minimumBalance confirmingEnv;
     partialSignRejected := fun _ _ => Some "Transaction recentBlockhash required";
     sendAndConfirm := sendAndConfirm confirmingEnv;
     rangeErrorText := rangeErrorText confirmingEnv;
     showSol := showSol confirmingEnv |}.

(** The same, with an adapter whose account text is not an address. *)
Definition malformedEnv : Env :=
  {| adapterCreate := fun _ _ => inr {| getAccount := "VaultPayerAddress" |};
     publicKeyErrorText := publicKeyErrorText libraryEnv;
     keypairRejected := None;
     keypairGenerate := keypairGenerate libraryEnv;
     minimumBalance := minimumBalance libraryEnv;
     partialSignRejected := partialSignRejected libraryEnv;
     sendAndConfirm := sendAndConfirm libraryEnv;
     rangeErrorText := rangeErrorText libraryEnv;
     showSol := showSol libraryEnv |}.


(** The same closure, created when the status was [st]. *)
Definition withDeploymentStatus (view : DeployView) (st : DeploymentStatus) : DeployView :=
  {| apiKey := apiKey view;
     apiSecretPath := apiSecretPath view;
     vaultAccountId := vaultAccountId view;
     programPath := programPath view;
     programData := programData view;
     deploymentStatus := st |}.


(** ** The form: file selection, file loading, the path field *)

Module Form.

Record File := { name : string }.

(** The form state of lines 58-63. *)
Record t := {
  programPath : string;
  selectedFile : option File;
  programData : option Buffer.t
}.

Definition initial : t :=
  {| programPath := ""; selectedFile := None; programData := None |}.

(** [handleFileChange], lines 76-98, up to the start of the read: with a
    non-empty file list the first file becomes the selected file and its
    read is started; [None] is a null file list. *)
Definition handleFileChange (files : option (list File)) (st : t) : t * option File :=
  match files with
  | Some (file :: _) =>
      ({| programPath := programPath st;
          selectedFile := Some file;
          programData := programData st |}, Some file)
  | _ => (st, None)
  end.

(** [reader.onload], lines 82-95, for the read started on [file];
    [result] is [e.target.result], [None] when it is null. *)
Definition onload (file : File) (result : option Buffer.t) (st : t) : t * list Toast :=
  match result with
  | Some bytes =>
      ({| programPath := name file;
          selectedFile := selectedFile st;
          programData := Some bytes |},
       [ {| title := "File uploaded";
            description := template ["File "; name file; " has been uploaded successfully"];
            toastStatus := "success";
            duration := 3000;
            isClosable := true |} ])
  | None => (st, [])
  end.

(** [onChange] of the Program Path field, line 373. *)
Definition typePath (text : string) (st : t) : t :=
  {| programPath := text;
     selectedFile := selectedFile st;
     programData := programData st |}.

(** What can happen to the form, one event at a time. A read ends, if it
    ends, some time after the selection that started it. *)
Inductive Action :=
| FileChange (files : option (list File))
| Loaded (file : File) (result : option Buffer.t)
| PathTyped (text : string).

Definition step (st : t) (a : Action) : t :=
  match a with
  | FileChange files => fst (handleFileChange files st)
  | Loaded file result => fst (onload file result st)
  | PathTyped text => typePath text st
  end.

Definition run (actions : list Action) (st : t) : t := fold_left step actions st.

(** The data of the last load that gave a result, if any. *)
Fixpoint lastLoaded (actions : list Action) (before : option Buffer.t) : option Buffer.t :=
  match actions with
  | [] => before
  | Loaded _ (Some bytes) :: actions => lastLoaded actions (Some bytes)
  | _ :: actions => lastLoaded actions before
  end.

End Form.

(** The closure [deployProgram] is created with, from the configuration,
    the form state and the status of the render. *)
Definition viewOfForm (apiKey apiSecretPath vaultAccountId : option string)
    (form : Form.t) (deploymentStatus : DeploymentStatus) : DeployView :=
  {| apiKey := apiKey;
     apiSecretPath := apiSecretPath;
     vaultAccountId := vaultAccountId;
     programPath := Form.programPath form;
     programData := Form.programData form;
     deploymentStatus := deploymentStatus |}.

(** * Properties *)

(** ** Buffers and payloads *)

Lemma Z_of_byte_of_Z (z : Z) : Buffer.Z_of_byte (Buffer.byte_of_Z z) = Z.land z 255.
Proof.
  unfold Buffer.Z_of_byte, Buffer.byte_of_Z.
  assert (Hr : (0 <= Z.land z 255 < 256)%Z).
  { change 255%Z with (Z.ones 8). rewrite Z.land_ones by lia.
    apply Z.mod_pos_bound. reflexivity. }
  destruct (Byte.of_N (Z.to_N (Z.land z 255))) as [b|] eqn:E.
  - apply Byte.to_of_N in E. rewrite E. lia.
  - apply Byte.of_N_None_iff in E. lia.
Qed.

Lemma le32_value (value : Z) :
  (0 <= value <= 4294967295)%Z ->
  (Z.land value 255 + 256 * Z.land (Z.shiftr value 8) 255
   + 65536 * Z.land (Z.shiftr value 16) 255
   + 16777216 * Z.land (Z.shiftr value 24) 255)%Z = value.
Proof.
  intros Hv.
  change 255%Z with (Z.ones 8).
  rewrite !Z.land_ones, !Z.shiftr_div_pow2 by lia.
  change (2 ^ 8)%Z with 256%Z. change (2 ^ 16)%Z with 65536%Z.
  change (2 ^ 24)%Z with 16777216%Z.
  Z.to_euclidean_division_equations. lia.
Qed.

Lemma readUInt32LE_le32 (pre post : Buffer.t) (value : Z) :
  (0 <= value <= 4294967295)%Z ->
  Buffer.readUInt32LE (pre ++ le32 value ++ post) (length pre) = Some value.
Proof.
  intros Hv. unfold Buffer.readUInt32LE.
  rewrite skipn_app, Nat.sub_diag, skipn_all. cbn [app skipn le32].
  rewrite !Z_of_byte_of_Z, le32_value by assumption. reflexivity.
Qed.

Lemma writeData_eq (offset : nat) (chunk : Buffer.t) :
  (Z.of_nat offset <= 4294967295)%Z ->
  writeData offset chunk = Some (le32 0 ++ le32 (Z.of_nat offset) ++ chunk).
Proof.
  intros Hoff. unfold writeData, Buffer.alloc, Buffer.writeUInt32LE.
  cbn [Nat.add repeat length firstn skipn app Nat.leb Z.leb Z.compare andb].
  assert (H0 : (0 <=? Z.of_nat offset)%Z = true) by (apply Z.leb_le; lia).
  assert (H1 : (Z.of_nat offset <=? 4294967295)%Z = true) by (apply Z.leb_le; lia).
  rewrite H0, H1. cbn [andb].
  unfold Buffer.copy.
  cbn [length Nat.sub firstn skipn app Nat.add].
  rewrite repeat_length, Nat.sub_0_r, Nat.min_id, firstn_all, skipn_all2
    by (rewrite repeat_length; lia).
  rewrite app_nil_r. reflexivity.
Qed.

Lemma writeData_none (offset : nat) (chunk : Buffer.t) :
  (4294967295 < Z.of_nat offset)%Z -> writeData offset chunk = None.
Proof.
  intros Hoff. unfold writeData, Buffer.alloc, Buffer.writeUInt32LE.
  cbn [Nat.add repeat length firstn skipn app Nat.leb Z.leb Z.compare andb].
  assert (H1 : (Z.of_nat offset <=? 4294967295)%Z = false) by (apply Z.leb_gt; lia).
  rewrite H1, andb_false_r. reflexivity.
Qed.

Lemma finalizeData_eq : finalizeData = Some (le32 1).
Proof. reflexivity. Qed.

Lemma readUInt32LE_head (value : Z) (post : Buffer.t) :
  (0 <= value <= 4294967295)%Z ->
  Buffer.readUInt32LE (le32 value ++ post) 0 = Some value.
Proof. intros Hv. apply (readUInt32LE_le32 [] post Hv). Qed.

Lemma readUInt32LE_second (first : Z) (value : Z) (post : Buffer.t) :
  (0 <= value <= 4294967295)%Z ->
  Buffer.readUInt32LE (le32 first ++ le32 value ++ post) 4 = Some value.
Proof. intros Hv. apply (readUInt32LE_le32 (le32 first) post Hv). Qed.

Lemma writeOffsetOf_writeTransaction (kp : Keypair) (offset : nat) (chunk : Buffer.t) :
  (Z.of_nat offset <= 4294967295)%Z ->
  writeOffsetOf (writeTransaction kp (le32 0 ++ le32 (Z.of_nat offset) ++ chunk))
  = Some offset.
Proof.
  intros Hoff. unfold writeOffsetOf, writeTransaction, loaderData, add.
  cbn [instructions newTransaction app writeInstruction data].
  rewrite readUInt32LE_head, readUInt32LE_second by lia.
  rewrite Nat2Z.id. reflexivity.
Qed.

Lemma isFinalize_writeTransaction (kp : Keypair) (offset : nat) (chunk : Buffer.t) :
  isFinalize (writeTransaction kp (le32 0 ++ le32 (Z.of_nat offset) ++ chunk)) = false.
Proof.
  unfold isFinalize, writeTransaction, loaderData, add.
  cbn [instructions newTransaction app writeInstruction data].
  rewrite readUInt32LE_head by lia. reflexivity.
Qed.

Lemma writeOffsetOf_finalizeTransaction (kp : Keypair) :
  writeOffsetOf (finalizeTransaction kp (le32 1)) = None.
Proof. reflexivity. Qed.

Lemma isFinalize_finalizeTransaction (kp : Keypair) :
  isFinalize (finalizeTransaction kp (le32 1)) = true.
Proof. reflexivity. Qed.




(** ** The chunk partition *)

Lemma chunks_step (programData : Buffer.t) (offset : nat) :
  offset < length programData ->
  chunks programData offset
  = (offset, Buffer.slice programData offset (offset + chunkSize))
      :: chunks programData (offset + chunkSize).
Proof.
  intros Hlt. rewrite chunks_equation_1.
  destruct (lt_dec offset (length programData)); [reflexivity | contradiction].
Qed.

Lemma chunks_done (programData : Buffer.t) (offset : nat) :
  length programData <= offset -> chunks programData offset = [].
Proof.
  intros Hge. rewrite chunks_equation_1.
  destruct (lt_dec offset (length programData)); [lia | reflexivity].
Qed.

(** Induction along the loop: the property holds once the guard fails, and
    is carried backwards over one turn. *)
Lemma loop_ind (programData : Buffer.t) (P : nat -> Prop) :
  (forall offset, length programData <= offset -> P offset) ->
  (forall offset, offset < length programData -> P (offset + chunkSize) -> P offset) ->
  forall offset, P offset.
Proof.
  intros Hdone Hstep offset.
  remember (length programData - offset) as fuel eqn:Hfuel.
  revert offset Hfuel.
  induction fuel as [fuel IH] using lt_wf_ind. intros offset Hfuel.
  destruct (lt_dec offset (length programData)) as [Hlt|Hge].
  - apply Hstep; [assumption|].
    apply (IH (length programData - (offset + chunkSize))); [|reflexivity].
    unfold chunkSize. lia.
  - apply Hdone. lia.
Qed.

Lemma slice_length (programData : Buffer.t) (offset : nat) :
  length (Buffer.slice programData offset (offset + chunkSize))
  = Nat.min chunkSize (length programData - offset).
Proof.
  unfold Buffer.slice.
  rewrite length_firstn, length_skipn. f_equal. lia.
Qed.

Lemma slice_rest (programData : Buffer.t) (offset : nat) :
  Buffer.slice programData offset (offset + chunkSize)
    ++ skipn (offset + chunkSize) programData
  = skipn offset programData.
Proof.
  unfold Buffer.slice.
  replace (offset + chunkSize - offset) with chunkSize by lia.
  rewrite (Nat.add_comm offset chunkSize), <- skipn_skipn.
  apply firstn_skipn.
Qed.

Lemma chunks_offsets (programData : Buffer.t) (offset : nat) :
  map fst (chunks programData offset)
  = map (fun i => offset + i * chunkSize) (seq 0 (length (chunks programData offset))).
Proof.
  revert offset. apply (loop_ind programData).
  - intros offset Hge. rewrite chunks_done by assumption. reflexivity.
  - intros offset Hlt IH. rewrite chunks_step by assumption.
    cbn [map fst length seq]. rewrite IH at 1.
    rewrite <- seq_shift, map_map. f_equal; [lia|].
    apply map_ext. intros i. lia.
Qed.

Lemma chunks_concat (programData : Buffer.t) (offset : nat) :
  concat (map snd (chunks programData offset)) = skipn offset programData.
Proof.
  revert offset. apply (loop_ind programData).
  - intros offset Hge. rewrite chunks_done, skipn_all2 by assumption. reflexivity.
  - intros offset Hlt IH. rewrite chunks_step by assumption.
    cbn [map snd concat]. rewrite IH. apply slice_rest.
Qed.

Lemma chunks_bounds (programData : Buffer.t) (offset : nat) :
  Forall (fun c => 1 <= length (snd c) <= chunkSize) (chunks programData offset).
Proof.
  revert offset. apply (loop_ind programData).
  - intros offset Hge. rewrite chunks_done by assumption. constructor.
  - intros offset Hlt IH. rewrite chunks_step by assumption.
    constructor; [|assumption].
    cbn [snd]. rewrite slice_length. unfold chunkSize. lia.
Qed.

Lemma chunks_sum (programData : Buffer.t) (offset : nat) :
  list_sum (map (fun c => length (snd c)) (chunks programData offset))
  = length programData - offset.
Proof.
  rewrite <- length_skipn, <- chunks_concat, length_concat, map_map. reflexivity.
Qed.

Lemma chunks_full (programData : Buffer.t) (offset : nat) :
  length programData mod chunkSize = 0 ->
  offset mod chunkSize = 0 ->
  Forall (fun c => length (snd c) = chunkSize) (chunks programData offset).
Proof.
  intros Hlen. revert offset. apply (loop_ind programData (fun offset => _ -> _)).
  - intros offset Hge _. rewrite chunks_done by assumption. constructor.
  - intros offset Hlt IH Hoff. rewrite chunks_step by assumption.
    constructor.
    + cbn [snd]. rewrite slice_length.
      apply Nat.Div0.mod_divides in Hlen, Hoff.
      destruct Hlen as [m Hm], Hoff as [k Hk]. rewrite Hm, Hk in *.
      unfold chunkSize in *. nia.
    + apply IH. rewrite <- Nat.Div0.add_mod_idemp_r, Nat.Div0.mod_same, Nat.add_0_r.
      assumption.
Qed.

Lemma chunks_count (programData : Buffer.t) (offset : nat) :
  length (chunks programData offset)
  = (length programData - offset + (chunkSize - 1)) / chunkSize.
Proof.
  revert offset. apply (loop_ind programData).
  - intros offset Hge. rewrite chunks_done by assumption.
    replace (length programData - offset) with 0 by lia.
    reflexivity.
  - intros offset Hlt IH. rewrite chunks_step by assumption.
    cbn [length]. rewrite IH. unfold chunkSize in *.
    destruct (le_lt_dec (offset + 900) (length programData)) as [Hfull|Hpart].
    + replace (length programData - offset + (900 - 1))
        with (length programData - (offset + 900) + (900 - 1) + 1 * 900) by lia.
      rewrite Nat.div_add by lia. lia.
    + replace (length programData - (offset + 900)) with 0 by lia.
      change ((0 + (900 - 1)) / 900) with 0.
      apply (Nat.div_unique _ 900 1 (length programData - offset - 1)); lia.
Qed.

Lemma last_Forall {A} (P : A -> Prop) (l : list A) (d : A) :
  l <> [] -> Forall P l -> P (last l d).
Proof.
  intros Hne Hall. rewrite Forall_forall in Hall. apply Hall.
  destruct (exists_last Hne) as [l' [a ->]].
  rewrite last_last. apply in_or_app. right. left. reflexivity.
Qed.

(** The loop processes exactly the chunks of [chunks], in order. *)
Lemma writeLoop_chunks (env : Env) (kp : Keypair) (programData : Buffer.t) (offset : nat) :
  writeLoop env kp programData offset = writeAll env kp (chunks programData offset).
Proof.
  revert offset. apply (loop_ind programData).
  - intros offset Hge. rewrite chunks_done by assumption.
    rewrite writeLoop_equation_1.
    destruct (lt_dec offset (length programData)); [lia | reflexivity].
  - intros offset Hlt IH. rewrite chunks_step by assumption.
    rewrite writeLoop_equation_1.
    destruct (lt_dec offset (length programData)); [|contradiction].
    cbn [writeLoop_unfold_clause_1 writeAll]. rewrite IH. reflexivity.
Qed.

(** ** The stages of a run *)


Lemma deployProgram_unfold (env : Env) (view : DeployView) :
  validated view ->
  deployProgram env view =
    match prepare env view with
    | (inl e, P) => (inr tt, P ++ catchEvents view e)
    | (inr (kp, programData), P) =>
        match writeLoop env kp programData 0 with
        | (inl e, W) => (inr tt, P ++ W ++ catchEvents view e)
        | (inr _, W) =>
            match finalize env view kp with
            | (inl e, F) => (inr tt, P ++ W ++ F ++ catchEvents view e)
            | (inr _, F) => (inr tt, P ++ W ++ F)
            end
        end
    end.
Proof.
  intros (Hk & Hs & Hv & Hd). unfold deployProgram.
  rewrite Hk, Hs, Hv, Hd. cbn [orb].
  unfold deployBody, tryCatch, andThen, bind.
  destruct (prepare env view) as [[e|[kp programData]] P]; [reflexivity|].
  destruct (writeLoop env kp programData 0) as [[e|[]] W].
  - rewrite app_assoc. reflexivity.
  - destruct (finalize env view kp) as [[e|[]] F].
    + rewrite !app_assoc. reflexivity.
    + rewrite !app_assoc. reflexivity.
Qed.

Lemma deployProgram_rejected (env : Env) (view : DeployView) :
  ~ validated view ->
  deployProgram env view
  = (inr tt,
     [ EvToast {| title := "Missing required fields";
                  description := "Please fill in all required fields and upload a program file";
                  toastStatus := "error"; duration := 5000; isClosable := true |} ]).
Proof.
  intros Hnot. unfold deployProgram, validated in *.
  destruct (falsy (apiKey view)), (falsy (apiSecretPath view)),
    (falsy (vaultAccountId view)), (isNull (programData view));
    try reflexivity.
  exfalso. apply Hnot. repeat split.
Qed.

Lemma validated_dec (view : DeployView) : {validated view} + {~ validated view}.
Proof.
  unfold validated.
  destruct (falsy (apiKey view)), (falsy (apiSecretPath view)),
    (falsy (vaultAccountId view)), (isNull (programData view));
    try (left; repeat split; reflexivity);
    right; intros (H1 & H2 & H3 & H4); discriminate.
Qed.

Lemma prepare_events (env : Env) (view : DeployView) :
  Forall preludeEvent (snd (prepare env view)).
Proof.
  unfold prepare. run_monad. cbn [isDevnet].
  repeat ask env view; repeat constructor.
Qed.

Lemma prepare_ok (env : Env) (view : DeployView) (kp : Keypair) (data : Buffer.t)
    (P : list Event) :
  prepare env view = (inr (kp, data), P) ->
  programData view = Some data
  /\ exists connection,
       connectionOf env view = inr connection
       /\ kp = match keypairRejected env with
               | None => {| publicKey := {| toBase58 := getAccount connection |};
                            secretKey := Buffer.alloc 64 |}
               | Some _ => keypairGenerate env
               end.
Proof.
  unfold prepare, connectionOf. run_monad. cbn [isDevnet].
  repeat ask env view; try discriminate;
    intros H; injection H as <- <- _; (split; [reflexivity|]);
    eexists; split; reflexivity.
Qed.

Lemma finalize_cases (env : Env) (view : DeployView) (kp : Keypair) :
  let tx := finalizeTransaction kp (le32 1) in
  (exists e,
     sendAndConfirm env tx [] = inl e
     /\ finalize env view kp
        = (inl e, [ EvUpdate (AppendLog "Finalizing program..."); EvSend tx [] (inl e) ]))
  \/ (exists h,
     sendAndConfirm env tx [] = inr h
     /\ finalize env view kp
        = (inr tt, [ EvUpdate (AppendLog "Finalizing program...");
                     EvSend tx [] (inr h);
                     EvUpdate (AppendLog (template ["Program finalized: "; explorerUrl h]));
                     EvUpdate (SetTo (successStatus view kp));
                     EvToast (successToast kp) ])).
Proof.
  intros tx. unfold finalize. rewrite finalizeData_eq. run_monad. fold tx.
  destruct (sendAndConfirm env tx []) as [e|h].
  - left. exists e. split; reflexivity.
  - right. exists h. split; reflexivity.
Qed.

(** ** Runs of the write loop *)

Lemma writeLoop_trace (env : Env) (kp : Keypair) (programData : Buffer.t) (offset : nat) :
  WriteTrace env kp programData offset
    (fst (writeLoop env kp programData offset))
    (snd (writeLoop env kp programData offset)).
Proof.
  revert offset. apply (loop_ind programData).
  - intros offset Hge. rewrite writeLoop_equation_1.
    destruct (lt_dec offset (length programData)); [lia|].
    apply WT_done. assumption.
  - intros offset Hlt IH. rewrite writeLoop_equation_1.
    destruct (lt_dec offset (length programData)); [|contradiction].
    cbn [writeLoop_unfold_clause_1]. unfold writeChunk.
    destruct (Z_le_gt_dec (Z.of_nat offset) 4294967295) as [Hfit|Hbig].
    + rewrite writeData_eq by assumption. run_monad.
      fold (chunkTransaction kp programData offset).
      destruct (sendAndConfirm env (chunkTransaction kp programData offset) [])
        as [e|h] eqn:Hsend.
      * apply WT_fail; assumption.
      * destruct (writeLoop env kp programData (offset + chunkSize)) as [r evs].
        apply WT_step; assumption.
    + rewrite writeData_none by lia. apply WT_range; [assumption | lia].
Qed.

Lemma chunkTransaction_offset (kp : Keypair) (programData : Buffer.t) (offset : nat) :
  (Z.of_nat offset <= 4294967295)%Z ->
  writeOffsetOf (chunkTransaction kp programData offset) = Some offset.
Proof. apply writeOffsetOf_writeTransaction. Qed.

Lemma chunkTransaction_not_finalize (kp : Keypair) (programData : Buffer.t) (offset : nat) :
  isFinalize (chunkTransaction kp programData offset) = false.
Proof. apply isFinalize_writeTransaction. Qed.

(** Every submission of the loop is the write of a chunk at or after the
    entry offset, with no local signature and no signer handed over. *)
Lemma trace_sends env kp programData offset r evs :
  WriteTrace env kp programData offset r evs ->
  forall tx signers r',
    In (EvSend tx signers r') evs ->
    exists o,
      offset <= o /\ writeOffsetOf tx = Some o /\ isFinalize tx = false
      /\ tx = chunkTransaction kp programData o /\ signers = [].
Proof.
  induction 1 as [offset Hge | offset Hlt Hbig | offset e Hlt Hfit Hsend
                 | offset h r evs Hlt Hfit Hsend Hrest IH];
    intros tx signers r' Hin.
  - destruct Hin.
  - destruct Hin.
  - destruct Hin as [Heq|[]]. injection Heq as <- <- <-.
    exists offset. repeat split; auto using chunkTransaction_offset,
      chunkTransaction_not_finalize.
  - destruct Hin as [Heq|[Heq|Hin]].
    + injection Heq as <- <- <-.
      exists offset. repeat split; auto using chunkTransaction_offset,
        chunkTransaction_not_finalize.
    + discriminate.
    + destruct (IH _ _ _ Hin) as (o & Hle & Hrest').
      exists o. split; [unfold chunkSize in *; lia | assumption].
Qed.

(** A submission of the loop is either the first one, at the entry offset,
    or comes right after the confirmed write of the chunk before it and the
    log entry of that write. *)
Lemma trace_sequential env kp programData offset r evs :
  WriteTrace env kp programData offset r evs ->
  forall pre tx signers r' post,
    evs = pre ++ EvSend tx signers r' :: post ->
    exists o,
      writeOffsetOf tx = Some o
      /\ ((pre = [] /\ o = offset)
          \/ exists pre' tx0 h,
               pre = pre' ++ [ EvSend tx0 [] (inr h);
                               EvUpdate (AppendLog (wroteChunkLog (o - chunkSize) h)) ]
               /\ writeOffsetOf tx0 = Some (o - chunkSize)
               /\ offset + chunkSize <= o).
Proof.
  induction 1 as [offset Hge | offset Hlt Hbig | offset e Hlt Hfit Hsend
                 | offset h r evs Hlt Hfit Hsend Hrest IH];
    intros pre tx signers r' post Hsplit.
  - destruct pre; discriminate.
  - destruct pre; discriminate.
  - destruct pre as [|p pre].
    + injection Hsplit as <- <- <-. exists offset.
      split; [apply chunkTransaction_offset; assumption | left; split; reflexivity].
    + destruct pre; discriminate.
  - destruct pre as [|p1 [|p2 pre]].
    + injection Hsplit as <- <- <- <-. exists offset.
      split; [apply chunkTransaction_offset; assumption | left; split; reflexivity].
    + discriminate.
    + injection Hsplit as <- <- Hsplit.
      destruct (IH _ _ _ _ _ Hsplit) as (o & Ho & [[-> ->] | (pre' & tx0 & h0 & -> & Htx0 & Hle)]).
      * exists (offset + chunkSize). split; [assumption|]. right.
        exists [], (chunkTransaction kp programData offset), h.
        rewrite Nat.add_sub. repeat split.
        -- apply chunkTransaction_offset; assumption.
        -- lia.
      * exists o. split; [assumption|]. right.
        exists (EvSend (chunkTransaction kp programData offset) [] (inr h)
                  :: EvUpdate (AppendLog (wroteChunkLog offset h)) :: pre'), tx0, h0.
        repeat split; [assumption | unfold chunkSize in *; lia].
Qed.


Lemma trace_updates env kp programData offset r evs :
  WriteTrace env kp programData offset r evs ->
  forall st, ~ In (EvUpdate (SetTo st)) evs.
Proof.
  induction 1 as [offset Hge | offset Hlt Hbig | offset e0 Hlt Hfit Hsend
                 | offset h r evs Hlt Hfit Hsend Hrest IH];
    intros st Hin.
  - destruct Hin.
  - destruct Hin.
  - destruct Hin as [Heq|[]]. discriminate.
  - destruct Hin as [Heq|[Heq|Hin]]; [discriminate | discriminate |].
    apply (IH st Hin).
Qed.

(** ** Offsets submitted, and where a submission sits in a run *)

Lemma preludeEvent_notWriteSend (ev : Event) : preludeEvent ev -> notWriteSend ev.
Proof.
  destruct ev as [| | | | | |tx s r]; cbn; trivial.
  intros H. unfold writeOffsetOf. rewrite H. reflexivity.
Qed.

Lemma writeOffsets_none (evs : list Event) :
  Forall notWriteSend evs -> writeOffsets evs = [].
Proof.
  induction 1 as [|ev evs Hev _ IH]; [reflexivity|].
  unfold writeOffsets in *. cbn [flat_map]. rewrite IH.
  destruct ev as [| | | | | |tx s r]; try reflexivity.
  cbn in Hev. rewrite Hev. reflexivity.
Qed.

Lemma writeOffsets_app (evs1 evs2 : list Event) :
  writeOffsets (evs1 ++ evs2) = writeOffsets evs1 ++ writeOffsets evs2.
Proof. apply flat_map_app. Qed.

Lemma trace_offsets env kp programData offset r evs :
  WriteTrace env kp programData offset r evs ->
  writeOffsets evs
  = map (fun i => offset + i * chunkSize) (seq 0 (length (writeOffsets evs))).
Proof.
  induction 1 as [offset Hge | offset Hlt Hbig | offset e0 Hlt Hfit Hsend
                 | offset h r evs Hlt Hfit Hsend Hrest IH].
  - reflexivity.
  - reflexivity.
  - unfold writeOffsets. cbn [flat_map].
    rewrite chunkTransaction_offset by assumption. cbn. f_equal. lia.
  - change (writeOffsets (?a :: ?b :: evs))
      with (writeOffsets [a] ++ writeOffsets [b] ++ writeOffsets evs).
    unfold writeOffsets at 1 2 4 5. cbn [flat_map].
    rewrite chunkTransaction_offset by assumption.
    cbn [app length seq map]. rewrite IH at 1.
    rewrite <- seq_shift, map_map. f_equal; [lia|].
    apply map_ext. intros i. lia.
Qed.

(** An element that occurs neither in the first nor in the last of three
    segments is found in the middle one. *)
Lemma split_middle {A} (P W R pre post : list A) (x : A) :
  P ++ W ++ R = pre ++ x :: post ->
  ~ In x P -> ~ In x R ->
  exists pre2 post2, W = pre2 ++ x :: post2 /\ pre = P ++ pre2.
Proof.
  revert pre. induction P as [|p P IHP]; intros pre Heq HP HR.
  - cbn [app] in Heq. revert pre Heq.
    induction W as [|w W IHW]; intros pre Heq.
    + exfalso. apply HR. cbn [app] in Heq. rewrite Heq.
      apply in_or_app. right. left. reflexivity.
    + destruct pre as [|q pre].
      * injection Heq as -> Heq. exists [], W. split; reflexivity.
      * injection Heq as -> Heq.
        destruct (IHW pre Heq) as (pre2 & post2 & -> & Hpre).
        cbn [app] in Hpre. subst pre.
        exists (q :: pre2), post2. split; reflexivity.
  - destruct pre as [|q pre].
    + injection Heq as -> Heq. exfalso. apply HP. left. reflexivity.
    + injection Heq as -> Heq.
      destruct (IHP pre Heq) as (pre2 & post2 & -> & ->).
      * intros Hin. apply HP. right. assumption.
      * assumption.
      * exists pre2, post2. split; reflexivity.
Qed.

(** ** Outcomes *)

Lemma deployProgram_outcome (env : Env) (view : DeployView) :
  fst (deployProgram env view) = inr tt
  /\ Outcome env view (snd (deployProgram env view)).
Proof.
  destruct (validated_dec view) as [Hval|Hnot].
  - rewrite deployProgram_unfold by assumption.
    destruct (prepare env view) as [[e|[kp programData]] P] eqn:Hprep.
    + split; [reflexivity|]. apply PrepareFailed; assumption.
    + pose proof (writeLoop_trace env kp programData 0) as Htrace.
      destruct (writeLoop env kp programData 0) as [[e|[]] W]; cbn [fst snd] in Htrace.
      * split; [reflexivity|]. eapply WriteFailed; eassumption.
      * destruct (finalize_cases env view kp) as [(e & Hsend & ->)|(h & Hsend & ->)].
        -- split; [reflexivity|]. eapply FinalizeFailed; eassumption.
        -- split; [reflexivity|]. eapply Succeeded; eassumption.
  - rewrite deployProgram_rejected by assumption.
    split; [reflexivity|]. apply Rejected. assumption.
Qed.

(** ** Replaying the updates of a run *)

Lemma replay_app (evs1 evs2 : list Event) (init : DeploymentStatus) :
  replay (evs1 ++ evs2) init = replay evs2 (replay evs1 init).
Proof. apply fold_left_app. Qed.

Lemma replay_catch (view : DeployView) (e : string) (init : DeploymentStatus) :
  replay (catchEvents view e) init = errorStatus view e.
Proof. reflexivity. Qed.

Lemma replay_finalize_ok (view : DeployView) (kp : Keypair) (h : string)
    (init : DeploymentStatus) :
  replay (finalizeEventsOk view kp h) init = successStatus view kp.
Proof. reflexivity. Qed.

(** ** The claims *)

(** C1. For a non-empty program blob, the loop of [deployProgram] goes
    through the chunks of [chunks]; their offsets are 0, 900, 1800, ...;
    each is at most 900 bytes long and none is empty; their lengths sum to
    the length of the blob and their concatenation is the blob; and when
    the length of the blob is a multiple of 900, the last chunk (indeed
    every chunk) has exactly 900 bytes and there are length/900 chunks. *)
Theorem chunk_partition (env : Env) (kp : Keypair) (programData : Buffer.t) :
  0 < length programData ->
  chunkSize = 900
  /\ writeLoop env kp programData 0 = writeAll env kp (chunks programData 0)
  /\ map fst (chunks programData 0)
     = map (fun i => i * 900) (seq 0 (length (chunks programData 0)))
  /\ Forall (fun c => length (snd c) <= 900) (chunks programData 0)
  /\ Forall (fun c => snd c <> []) (chunks programData 0)
  /\ list_sum (map (fun c => length (snd c)) (chunks programData 0)) = length programData
  /\ concat (map snd (chunks programData 0)) = programData
  /\ length (chunks programData 0) = (length programData + 899) / 900
  /\ (length programData mod 900 = 0 ->
      length (snd (last (chunks programData 0) (0, []))) = 900
      /\ Forall (fun c => length (snd c) = 900) (chunks programData 0)
      /\ length (chunks programData 0) = length programData / 900).
Proof.
  intros Hpos.
  split; [reflexivity|].
  split; [apply writeLoop_chunks|].
  split; [apply (chunks_offsets programData 0)|].
  split.
  { eapply Forall_impl; [|apply chunks_bounds]. cbn beta. intros c Hc. apply Hc. }
  split.
  { eapply Forall_impl; [|apply chunks_bounds]. cbn beta. intros c Hc Hnil.
    rewrite Hnil in Hc. cbn in Hc. lia. }
  split; [rewrite chunks_sum; lia|].
  split; [apply (chunks_concat programData 0)|].
  split; [rewrite chunks_count, Nat.sub_0_r; reflexivity|].
  intros Hmod.
  assert (Hfull : Forall (fun c => length (snd c) = 900) (chunks programData 0)).
  { apply chunks_full; [assumption | reflexivity]. }
  split; [|split; [assumption|]].
  - apply (@last_Forall _ (fun c : nat * Buffer.t => length (snd c) = 900));
      [|assumption].
    rewrite chunks_step by assumption. discriminate.
  - rewrite chunks_count, Nat.sub_0_r.
    apply Nat.Div0.mod_divides in Hmod. destruct Hmod as [m Hm].
    rewrite Hm, (Nat.mul_comm 900 m), Nat.div_mul by lia.
    change (chunkSize - 1) with 899.
    symmetry. apply (Nat.div_unique _ 900 m 899); unfold chunkSize in *; lia.
Qed.

Lemma chunk_partition_witness :
  0 < length (blob 1800)
  /\ length (blob 1800) mod 900 = 0
  /\ map fst (chunks (blob 1800) 0) = [0; 900]
  /\ length (snd (last (chunks (blob 1800) 0) (0, []))) = 900
  /\ concat (map snd (chunks (blob 1800) 0)) = blob 1800.
Proof.
  assert (Hpos : 0 < length (blob 1800)) by (vm_compute; lia).
  assert (Hmod : length (blob 1800) mod 900 = 0) by (vm_compute; reflexivity).
  destruct (chunk_partition confirmingEnv (keypairGenerate confirmingEnv) (blob 1800) Hpos)
    as (_ & _ & Hoffsets & _ & _ & _ & Hconcat & Hcount & Hmultiple).
  destruct (Hmultiple Hmod) as (Hlast & _ & Hn).
  split; [exact Hpos|]. split; [exact Hmod|].
  split; [|split; [exact Hlast | exact Hconcat]].
  rewrite Hoffsets, Hn. vm_compute. reflexivity.
Defined.

(** C2. In every run, the offsets of the write transactions submitted are
    0, 900, 1800, ... in this order, and a write transaction at an offset
    other than 0 is submitted right after the write transaction of the
    chunk before it was confirmed and the log entry of that confirmation
    was emitted. *)
Theorem writes_strictly_sequential (env : Env) (view : DeployView) :
  writeOffsets (snd (deployProgram env view))
  = map (fun i => i * chunkSize)
      (seq 0 (length (writeOffsets (snd (deployProgram env view)))))
  /\ forall pre tx signers r post o,
       snd (deployProgram env view) = pre ++ EvSend tx signers r :: post ->
       writeOffsetOf tx = Some o ->
       o = 0
       \/ exists pre' tx0 h,
            pre = pre' ++ [ EvSend tx0 [] (inr h);
                            EvUpdate (AppendLog (wroteChunkLog (o - chunkSize) h)) ]
            /\ writeOffsetOf tx0 = Some (o - chunkSize)
            /\ chunkSize <= o.
Proof.
  assert (Hshape : exists P W R kp programData r,
             snd (deployProgram env view) = P ++ W ++ R
             /\ Forall notWriteSend P /\ Forall notWriteSend R
             /\ WriteTrace env kp programData 0 r W).
  { destruct (deployProgram_outcome env view) as [_ Hout].
    assert (Hprep : Forall notWriteSend (snd (prepare env view))).
    { eapply Forall_impl; [apply preludeEvent_notWriteSend | apply prepare_events]. }
    destruct Hout as [Hnot | e P Hval HP | kp programData P W e Hval HP HW
                     | kp programData P W e Hval HP HW Hsend
                     | kp programData P W h Hval HP HW Hsend];
      try (rewrite HP in Hprep; cbn [snd] in Hprep).
    - exists [EvToast missingFieldsToast], [], [], (keypairGenerate env), [], (inr tt).
      repeat split; [repeat constructor | constructor |].
      apply WT_done. cbn. lia.
    - exists P, [], (catchEvents view e), (keypairGenerate env), [], (inr tt).
      repeat split; [assumption | repeat constructor |].
      apply WT_done. cbn. lia.
    - exists P, W, (catchEvents view e), kp, programData, (inl e).
      repeat split; [assumption | repeat constructor | assumption].
    - exists P, W, (finalizeEventsFailed kp e ++ catchEvents view e), kp, programData, (inr tt).
      repeat split; [assumption | repeat constructor | assumption].
    - exists P, W, (finalizeEventsOk view kp h), kp, programData, (inr tt).
      repeat split; [assumption | repeat constructor | assumption]. }
  destruct Hshape as (P & W & R & kp & programData & r & Hevs & HP & HR & HW).
  rewrite Hevs. split.
  - rewrite !writeOffsets_app, (writeOffsets_none HP), (writeOffsets_none HR), app_nil_r.
    cbn [app]. apply (trace_offsets HW).
  - intros pre tx signers r' post o Hsplit Ho.
    assert (Hnot : forall l, Forall notWriteSend l -> ~ In (EvSend tx signers r') l).
    { intros l Hl Hin. rewrite Forall_forall in Hl. apply Hl in Hin.
      cbn in Hin. congruence. }
    destruct (split_middle _ _ _ _ _ _ Hsplit (Hnot _ HP) (Hnot _ HR))
      as (pre2 & post2 & HWsplit & ->).
    destruct (trace_sequential HW _ _ _ _ _ HWsplit)
      as (o' & Ho' & [[-> ->] | (pre' & tx0 & h & -> & Htx0 & Hle)]).
    + left. congruence.
    + right. assert (o' = o) by congruence. subst o'.
      exists (P ++ pre'), tx0, h. rewrite app_assoc.
      repeat split; [assumption | lia].
Qed.

Lemma writes_strictly_sequential_witness :
  exists pre' tx0 h,
    firstn 18 (snd (deployProgram confirmingEnv (viewOf (Some (blob 1000)))))
    = pre' ++ [ EvSend tx0 [] (inr h);
                EvUpdate (AppendLog (wroteChunkLog 0 h)) ]
    /\ writeOffsetOf tx0 = Some 0.
Proof.
  destruct (writes_strictly_sequential confirmingEnv (viewOf (Some (blob 1000))))
    as [_ Hseq].
  destruct (Hseq
              (firstn 18 (snd (deployProgram confirmingEnv (viewOf (Some (blob 1000))))))
              (chunkTransaction
                 vaultKeypair (blob 1000) 900)
              [] (inr "txhash")
              (skipn 19 (snd (deployProgram confirmingEnv (viewOf (Some (blob 1000))))))
              900)
    as [Hzero | (pre' & tx0 & h & Hpre & Htx0 & _)].
  - vm_compute. reflexivity.
  - vm_compute. reflexivity.
  - discriminate Hzero.
  - exists pre', tx0, h. split; [exact Hpre | exact Htx0].
Defined.

(** *** Failures on a chunk *)


Lemma catch_send (view : DeployView) (e : string) (tx : Transaction)
    (signers : list Keypair) (r : Result string) :
  ~ In (EvSend tx signers r) (catchEvents view e).
Proof. intros [H|[H|[H|[]]]]; discriminate. Qed.




(** *** Input validation and the empty blob *)

Lemma prepare_connects (env : Env) (view : DeployView) :
  exists cfg,
    nth_error (snd (prepare env view)) 3
    = Some (EvCreateConnection (clusterApiUrl "devnet") cfg (connectionOf env view)).
Proof.
  eexists. unfold prepare, connectionOf. run_monad. cbn [isDevnet].
  repeat ask env view; reflexivity.
Qed.

Lemma submissions_app (evs1 evs2 : list Event) :
  submissions (evs1 ++ evs2) = submissions evs1 ++ submissions evs2.
Proof. apply flat_map_app. Qed.

Lemma empty_trace env kp r W :
  WriteTrace env kp [] 0 r W -> r = inr tt /\ W = [].
Proof.
  intros HW. inversion HW; subst; cbn in *; try lia. split; reflexivity.
Qed.

(** Once the connection gave a well-formed address and the key pair is
    chosen, the run asks the ledger for the rent of the data length. *)
Lemma prepare_asks_rent (env : Env) (view : DeployView) (connection : Connection)
    (data : Buffer.t) :
  connectionOf env view = inr connection ->
  wellFormed (getAccount connection) = true ->
  programData view = Some data ->
  In (EvGetMinimumBalance (length data) (minimumBalance env (length data)))
     (snd (prepare env view)).
Proof.
  unfold prepare, connectionOf. run_monad. cbn [isDevnet].
  intros Hconn Hwell Hdata. rewrite Hconn, Hdata. cbn [app fst snd].
  rewrite Hwell. cbn [app fst snd].
  repeat ask env view; cbn; tauto.
Qed.

(** C6, as stated, fails. On an empty blob, with a key library whose
    [partialSign] throws, the input check passes, the connection is created
    and the ledger is asked for the rent of 0 bytes; the run then fails
    with the error of [partialSign], not with an input error. *)
Lemma empty_blob_reaches_the_network :
  validated (viewOf (Some []))
  /\ nth_error (snd (deployProgram libraryEnv (viewOf (Some [])))) 3
     = Some (EvCreateConnection "https://api.devnet.solana.com"
               {| cfgApiKey := "api-key"; cfgApiSecretPath := "secret.key";
                  cfgVaultAccountId := "0"; cfgFeeLevel := MEDIUM;
                  cfgSilent := false; cfgDevnet := true |}
               (inr {| getAccount := vaultAddress |}))
  /\ nth_error (snd (deployProgram libraryEnv (viewOf (Some [])))) 9
     = Some (EvGetMinimumBalance 0 (inr 890880%N))
  /\ stateAfter libraryEnv (viewOf (Some [])) idleStatus
     = errorStatus (viewOf (Some [])) "Transaction recentBlockhash required".
Proof.
  split; [repeat split|]. repeat split; vm_compute; reflexivity.
Qed.

(** C6, amended. An empty program blob passes the input check, which only
    rejects absent program data or configuration: the call does not end
    with the "Missing required fields" toast, the run creates the
    connection and, once the connection gives a well-formed account
    address, asks the ledger for the rent of 0 bytes. No write transaction
    is ever submitted for it. *)
Theorem empty_blob_not_rejected (env : Env) (view : DeployView) :
  falsy (apiKey view) = false ->
  falsy (apiSecretPath view) = false ->
  falsy (vaultAccountId view) = false ->
  programData view = Some [] ->
  validated view
  /\ snd (deployProgram env view) <> [EvToast missingFieldsToast]
  /\ (exists cfg,
        nth_error (snd (deployProgram env view)) 3
        = Some (EvCreateConnection (clusterApiUrl "devnet") cfg (connectionOf env view)))
  /\ (forall connection,
        connectionOf env view = inr connection ->
        wellFormed (getAccount connection) = true ->
        In (EvGetMinimumBalance 0 (minimumBalance env 0)) (snd (deployProgram env view)))
  /\ writeOffsets (snd (deployProgram env view)) = [].
Proof.
  intros Hk Hs Hv Hdata.
  assert (Hval : validated view).
  { unfold validated. rewrite Hdata. repeat split; assumption. }
  split; [exact Hval|].
  destruct (deployProgram_outcome env view) as [_ Hout].
  pose proof (prepare_events env view) as Hprep.
  destruct (prepare_connects env view) as [cfg Hconn].
  assert (Hshape : exists P R,
             snd (deployProgram env view) = P ++ R
             /\ snd (prepare env view) = P /\ writeOffsets R = []).
  { assert (Hdata' : forall kp data P, prepare env view = (inr (kp, data), P) -> data = []).
    { intros kp data P HP. apply prepare_ok in HP. destruct HP as [HP _]. congruence. }
    destruct Hout as [Hnot | e P _ HP | kp programData P W e _ HP HW
                     | kp programData P W e _ HP HW Hsend
                     | kp programData P W h _ HP HW Hsend];
      [contradiction | | | |];
      try (rewrite (Hdata' _ _ _ HP) in HW; apply empty_trace in HW;
           destruct HW as [Hr ->]; try discriminate Hr);
      eexists P, _; (split; [reflexivity|]); rewrite HP; split; reflexivity. }
  destruct Hshape as (P & R & Hevs & HP & HR).
  rewrite Hevs.
  assert (Hlen : 3 < length P).
  { apply nth_error_Some. rewrite <- HP, Hconn. discriminate. }
  split; [|split; [|split]].
  - intros Heq. apply (f_equal (@length Event)) in Heq.
    rewrite length_app in Heq. cbn [length] in Heq. lia.
  - exists cfg. rewrite nth_error_app1 by assumption. rewrite <- HP. exact Hconn.
  - intros connection Hc Hwell. apply in_or_app. left. rewrite <- HP.
    exact (@prepare_asks_rent env view connection [] Hc Hwell Hdata).
  - rewrite writeOffsets_app, HR, app_nil_r. apply writeOffsets_none. rewrite <- HP.
    eapply Forall_impl; [apply preludeEvent_notWriteSend | exact Hprep].
Qed.

Lemma empty_blob_not_rejected_witness :
  validated (viewOf (Some []))
  /\ In (EvGetMinimumBalance 0 (inr 890880%N))
       (snd (deployProgram libraryEnv (viewOf (Some []))))
  /\ writeOffsets (snd (deployProgram libraryEnv (viewOf (Some [])))) = [].
Proof.
  destruct (@empty_blob_not_rejected libraryEnv (viewOf (Some [])))
    as (Hval & _ & _ & Hrent & Hwrites); try reflexivity.
  split; [exact Hval|]. split; [|exact Hwrites].
  apply (Hrent {| getAccount := vaultAddress |}); reflexivity.
Defined.

(** *** Local signatures *)





(** *** The log *)

(** After any run that passed the input check, the log is the log captured
    by the closure followed by one terminal line. *)
Lemma terminal_logs (env : Env) (view : DeployView) (init : DeploymentStatus) :
  validated view ->
  exists line, logs (stateAfter env view init) = logs (deploymentStatus view) ++ [line].
Proof.
  intros Hval. unfold stateAfter.
  destruct (deployProgram_outcome env view) as [_ Hout].
  destruct Hout as [Hnot | e P _ HP | kp programData P W e _ HP HW
                   | kp programData P W e _ HP HW Hsend
                   | kp programData P W h _ HP HW Hsend];
    [contradiction | | | |];
    rewrite ?replay_app, ?replay_catch, ?replay_finalize_ok; eexists; reflexivity.
Qed.

(** C8 does not hold of the code. On a one-byte blob and a cooperative
    environment, the state just before the terminal update holds the
    fifteen log lines of the run; the terminal update replaces them by the
    log captured when the closure was created (empty here) followed by the
    terminal message. *)
Theorem terminal_update_drops_the_run_log :
  exists before st t,
    snd (deployProgram confirmingEnv (viewOf (Some (blob 1))))
    = before ++ [EvUpdate (SetTo st); EvToast t]
    /\ length (logs (replay before idleStatus)) = 15
    /\ hd "" (logs (replay before idleStatus)) = "Starting Solana program deployment..."
    /\ In "Writing program data in chunks..." (logs (replay before idleStatus))
    /\ status (stateAfter confirmingEnv (viewOf (Some (blob 1))) idleStatus) = success
    /\ logs (stateAfter confirmingEnv (viewOf (Some (blob 1))) idleStatus)
       = ["Program deployment completed successfully!"].
Proof.
  exists (removelast (removelast (snd (deployProgram confirmingEnv (viewOf (Some (blob 1))))))).
  eexists. eexists.
  split; [vm_compute; reflexivity|].
  split; [vm_compute; reflexivity|].
  split; [vm_compute; reflexivity|].
  split; [vm_compute; do 11 right; left; reflexivity|].
  split; vm_compute; reflexivity.
Qed.

(** *** Failures and the terminal status *)








(** *** The program identity *)

(** C10. When the key library accepts the wallet-derived key pair (the inner
    catch branch is not taken), a run that sets the success status obtained
    a connection, its program identity has the public key of the fee payer
    given by that connection, and the program id of the success status is
    that key. *)
Theorem wallet_identity_is_the_payer
    (env : Env) (view : DeployView) (st : DeploymentStatus) :
  keypairRejected env = None ->
  In (EvUpdate (SetTo st)) (snd (deployProgram env view)) ->
  status st = success ->
  exists connection kp programData P,
    connectionOf env view = inr connection
    /\ prepare env view = (inr (kp, programData), P)
    /\ publicKey kp = {| toBase58 := getAccount connection |}
    /\ programId st = Some (getAccount connection).
Proof.
  intros Hwallet Hin Hsuccess.
  destruct (deployProgram_outcome env view) as [_ Hout].
  pose proof (prepare_events env view) as Hprep.
  assert (Hprelude : forall P, snd (prepare env view) = P -> ~ In (EvUpdate (SetTo st)) P).
  { intros P HP HinP. rewrite <- HP in HinP. rewrite Forall_forall in Hprep.
    apply Hprep in HinP. cbn in HinP. congruence. }
  assert (Hcatch : forall e, ~ In (EvUpdate (SetTo st)) (catchEvents view e)).
  { intros e [H|[H|[H|[]]]]; try discriminate.
    injection H as <-. discriminate. }
  destruct Hout as [Hnot | e P _ HP | kp programData P W e _ HP HW
                   | kp programData P W e _ HP HW Hsend
                   | kp programData P W h _ HP HW Hsend];
    try (specialize (Hprelude P ltac:(rewrite HP; reflexivity))).
  - destruct Hin as [H|[]]. discriminate.
  - apply in_app_or in Hin. destruct Hin as [Hin|Hin]; [contradiction|].
    destruct (Hcatch _ Hin).
  - apply in_app_or in Hin. destruct Hin as [Hin|Hin]; [contradiction|].
    apply in_app_or in Hin. destruct Hin as [Hin|Hin];
      [destruct (trace_updates HW _ Hin) | destruct (Hcatch _ Hin)].
  - apply in_app_or in Hin. destruct Hin as [Hin|Hin]; [contradiction|].
    apply in_app_or in Hin. destruct Hin as [Hin|Hin];
      [destruct (trace_updates HW _ Hin)|].
    apply in_app_or in Hin. destruct Hin as [Hin|Hin]; [|destruct (Hcatch _ Hin)].
    destruct Hin as [H|[H|[]]]; discriminate.
  - apply in_app_or in Hin. destruct Hin as [Hin|Hin]; [contradiction|].
    apply in_app_or in Hin. destruct Hin as [Hin|Hin];
      [destruct (trace_updates HW _ Hin)|].
    destruct Hin as [H|[H|[H|[H|[H|[]]]]]]; try discriminate.
    injection H as <-.
    destruct (prepare_ok _ _ HP) as (_ & connection & Hconn & Hkp).
    rewrite Hwallet in Hkp.
    exists connection, kp, programData, P.
    split; [assumption|]. split; [assumption|].
    rewrite Hkp. split; reflexivity.
Qed.

Lemma wallet_identity_is_the_payer_witness :
  exists connection kp programData P,
    connectionOf confirmingEnv (viewOf (Some (blob 1))) = inr connection
    /\ prepare confirmingEnv (viewOf (Some (blob 1))) = (inr (kp, programData), P)
    /\ publicKey kp = {| toBase58 := getAccount connection |}
    /\ programId (successStatus (viewOf (Some (blob 1)))
                    vaultKeypair)
       = Some (getAccount connection).
Proof.
  apply (@wallet_identity_is_the_payer confirmingEnv (viewOf (Some (blob 1)))
           (successStatus (viewOf (Some (blob 1)))
              vaultKeypair)).
  - reflexivity.
  - vm_compute. do 21 right. left. reflexivity.
  - reflexivity.
Defined.

(** * Further properties of the component *)

(** ** The stages in detail *)

Lemma prepare_shape (env : Env) (view : DeployView) :
  exists rest,
    snd (prepare env view)
    = EvUpdate (SetTo resetStatus)
        :: EvUpdate (AppendLog "Configuring Fireblocks connection...")
        :: EvUpdate (AppendLog "Creating connection to Solana devnet...")
        :: EvCreateConnection "https://api.devnet.solana.com" (connectionConfig view)
             (connectionOf env view)
        :: rest
    /\ Forall quietEvent rest.
Proof.
  unfold prepare, connectionOf. run_monad. cbn [isDevnet].
  repeat ask env view; eexists; (split; [reflexivity|]); repeat constructor.
Qed.

(** A successful preparation asked the ledger for the rent of the data
    length and had the account creation confirmed; that creation is its
    only submission. *)
Lemma prepare_create (env : Env) (view : DeployView) (kp : Keypair) (data : Buffer.t)
    (P : list Event) :
  prepare env view = (inr (kp, data), P) ->
  exists connection rent h,
    connectionOf env view = inr connection
    /\ minimumBalance env (length data) = inr rent
    /\ submissions P
       = [ (createAccountTransaction {| toBase58 := getAccount connection |} kp rent data,
            []) ]
    /\ sendResults P = [inr h].
Proof.
  unfold prepare, connectionOf. run_monad. cbn [isDevnet].
  repeat ask env view; try discriminate; try congruence;
    intros H; injection H as <- <- <-;
    try match goal with
        | H1 : minimumBalance env ?x = inr ?a, H2 : minimumBalance env ?x = inr ?b |- _ =>
            assert (a = b) by congruence; subst a
        end;
    eexists; eexists; eexists;
    (split; [reflexivity|]); (split; [reflexivity|]); split; reflexivity.
Qed.

(** A failed preparation had no submission confirmed. *)
Lemma prepare_failed (env : Env) (view : DeployView) (e : string) (P : list Event) :
  prepare env view = (inl e, P) ->
  sendResults P = [] \/ sendResults P = [inl e].
Proof.
  unfold prepare. run_monad. cbn [isDevnet].
  repeat ask env view; try discriminate; try congruence;
    intros H; injection H as <- <-; (left; reflexivity) || (right; reflexivity).
Qed.

Lemma firstn_plus {A} (n m : nat) (l : list A) :
  firstn (n + m) l = firstn n l ++ firstn m (skipn n l).
Proof.
  revert l. induction n as [|n IH]; intros l; [reflexivity|].
  destruct l as [|a l]; cbn [Nat.add firstn skipn app].
  - destruct m; reflexivity.
  - rewrite IH. reflexivity.
Qed.

Lemma chunkTransaction_payload (kp : Keypair) (programData : Buffer.t) (offset : nat) :
  loaderData (chunkTransaction kp programData offset)
  = Some (le32 0 ++ le32 (Z.of_nat offset)
            ++ Buffer.slice programData offset (offset + chunkSize)).
Proof. reflexivity. Qed.

(** ** More on the runs of the write loop *)

(** The loop only logs and submits; each of its submissions is the write of
    the chunk of the program data at an offset reached from the entry
    offset in steps of [chunkSize], below the data length and within 32
    bits, with no signer, and its result is the answer of the ledger. *)
Lemma trace_detail env kp programData offset r evs :
  WriteTrace env kp programData offset r evs ->
  Forall runningEvent evs
  /\ forall tx signers r',
       In (EvSend tx signers r') evs ->
       exists i,
         tx = chunkTransaction kp programData (offset + i * chunkSize)
         /\ offset + i * chunkSize < length programData
         /\ (Z.of_nat (offset + i * chunkSize) <= 4294967295)%Z
         /\ signers = []
         /\ r' = sendAndConfirm env tx [].
Proof.
  induction 1 as [offset Hge | offset Hlt Hbig | offset e Hlt Hfit Hsend
                 | offset h r evs Hlt Hfit Hsend Hrest [IHrun IHsend]].
  - split; [constructor | intros tx signers r' []].
  - split; [constructor | intros tx signers r' []].
  - split; [repeat constructor|].
    intros tx signers r' [Heq|[]]. injection Heq as <- <- <-.
    exists 0. rewrite Nat.add_0_r. repeat split; auto.
  - split; [repeat constructor; assumption|].
    intros tx signers r' [Heq|[Heq|Hin]].
    + injection Heq as <- <- <-.
      exists 0. rewrite Nat.add_0_r. repeat split; auto.
    + discriminate.
    + destruct (IHsend _ _ _ Hin) as (i & Htx & Hlen & Hz & Hs & Hr).
      exists (S i).
      replace (offset + S i * chunkSize) with (offset + chunkSize + i * chunkSize) by lia.
      repeat split; assumption.
Qed.

(** The bytes confirmed by the loop are a prefix, cut at a chunk boundary,
    of what was left of the data at its entry; all of it when the loop
    ends normally. *)
Lemma trace_written env kp programData offset r evs :
  WriteTrace env kp programData offset r evs ->
  (exists k, writtenBytes evs = firstn (k * chunkSize) (skipn offset programData))
  /\ (r = inr tt -> writtenBytes evs = skipn offset programData).
Proof.
  induction 1 as [offset Hge | offset Hlt Hbig | offset e Hlt Hfit Hsend
                 | offset h r evs Hlt Hfit Hsend Hrest [[k IHk] IHall]].
  - split; [exists 0; reflexivity|]. intros _. rewrite skipn_all2 by assumption. reflexivity.
  - split; [exists 0; reflexivity | discriminate].
  - split; [exists 0; reflexivity | discriminate].
  - assert (Hhead : writtenBytes
                      (EvSend (chunkTransaction kp programData offset) [] (inr h)
                         :: EvUpdate (AppendLog (wroteChunkLog offset h)) :: evs)
                    = Buffer.slice programData offset (offset + chunkSize)
                        ++ writtenBytes evs).
    { unfold writtenBytes. cbn [flat_map].
      rewrite chunkTransaction_offset, chunkTransaction_payload by assumption.
      reflexivity. }
    rewrite Hhead. split.
    + exists (S k). rewrite IHk. cbn [Nat.mul]. rewrite firstn_plus.
      unfold Buffer.slice.
      replace (offset + chunkSize - offset) with chunkSize by lia.
      rewrite skipn_skipn, (Nat.add_comm chunkSize offset). reflexivity.
    + intros Hr. rewrite (IHall Hr). apply slice_rest.
Qed.

(** A loop that ends normally submitted the write of every chunk, in
    order, and had each confirmed. *)
Lemma trace_complete env kp programData offset r evs :
  WriteTrace env kp programData offset r evs ->
  r = inr tt ->
  submissions evs
  = map (fun c => (chunkTransaction kp programData (fst c), [])) (chunks programData offset)
  /\ Forall confirmed (sendResults evs)
  /\ writeOffsets evs = map fst (chunks programData offset).
Proof.
  induction 1 as [offset Hge | offset Hlt Hbig | offset e Hlt Hfit Hsend
                 | offset h r evs Hlt Hfit Hsend Hrest IH];
    intros Hr; try discriminate.
  - rewrite chunks_done by assumption. repeat split. constructor.
  - destruct (IH Hr) as (Hsub & Hres & Hoff).
    rewrite chunks_step by assumption. split; [|split].
    + unfold submissions in *. cbn [flat_map app map fst]. rewrite Hsub. reflexivity.
    + unfold sendResults in *. cbn [flat_map app].
      constructor; [exists h; reflexivity | assumption].
    + unfold writeOffsets in *. cbn [flat_map].
      rewrite chunkTransaction_offset by assumption.
      cbn [app map fst]. rewrite Hoff. reflexivity.
Qed.

(** ** A run between its first and its last update *)

Lemma quietEvent_running (ev : Event) : quietEvent ev -> runningEvent ev.
Proof. destruct ev as [| [|] | | | | |]; cbn; trivial. Qed.

Lemma Forall_firstn_of {A} (P : A -> Prop) (n : nat) (l : list A) :
  Forall P l -> Forall P (firstn n l).
Proof.
  intros H. revert n. induction H as [|a l Ha _ IH]; intros [|n]; cbn; auto.
Qed.

Lemma Forall_skipn_of {A} (P : A -> Prop) (n : nat) (l : list A) :
  Forall P l -> Forall P (skipn n l).
Proof.
  intros H. revert n. induction H as [|a l Ha Hl IH]; intros [|n]; cbn; auto.
Qed.

(** Events other than a status replacement keep the status, the message
    and the program id, and can only add lines at the end of the log. *)
Lemma replay_running (evs : list Event) (st : DeploymentStatus) :
  Forall runningEvent evs ->
  status (replay evs st) = status st
  /\ message (replay evs st) = message st
  /\ programId (replay evs st) = programId st
  /\ exists more, logs (replay evs st) = logs st ++ more.
Proof.
  intros H. revert st. induction H as [|ev evs Hev _ IH]; intros st.
  - repeat split. exists []. rewrite app_nil_r. reflexivity.
  - unfold replay in *. cbn [fold_left].
    destruct (IH (applyEvent st ev)) as (Hs & Hm & Hp & more & Hl).
    rewrite Hs, Hm, Hp, Hl.
    destruct ev as [| [|log] | | | | |]; cbn in Hev |- *; try contradiction;
      try (repeat split; exists more; reflexivity).
    repeat split. exists (log :: more). rewrite <- app_assoc. reflexivity.
Qed.

(** A run that passed the input check starts by setting the "deploying"
    status and ends with the terminal status followed by a toast; in
    between no status is set and no toast is shown. *)
Lemma run_decomposition (env : Env) (view : DeployView) :
  validated view ->
  exists before terminal t,
    snd (deployProgram env view)
    = EvUpdate (SetTo resetStatus) :: before ++ [EvUpdate (SetTo terminal); EvToast t]
    /\ Forall runningEvent before
    /\ ((exists kp, terminal = successStatus view kp /\ t = successToast kp)
        \/ (exists e, terminal = errorStatus view e /\ t = failedToast e)).
Proof.
  intros Hval.
  destruct (deployProgram_outcome env view) as [_ Hout].
  destruct (prepare_shape env view) as (rest & Hshape & Hquiet).
  assert (Hrest : Forall runningEvent rest).
  { eapply Forall_impl; [apply quietEvent_running | exact Hquiet]. }
  destruct Hout as [Hnot | e P _ HP | kp programData P W e _ HP HW
                   | kp programData P W e _ HP HW Hsend
                   | kp programData P W h _ HP HW Hsend];
    [contradiction | | | |];
    rewrite HP in Hshape; cbn [snd] in Hshape; subst P;
    try (destruct (trace_detail HW) as [HWrun _]).
  - eexists (_ :: _ :: _ :: rest ++ [EvConsoleError e]), _, _.
    split; [|split; [|right; exists e; split; reflexivity]].
    + unfold catchEvents. cbn [app]. rewrite <- !app_assoc. reflexivity.
    + repeat (constructor; [exact I|]). apply Forall_app. split; [assumption|].
      repeat constructor.
  - eexists (_ :: _ :: _ :: rest ++ W ++ [EvConsoleError e]), _, _.
    split; [|split; [|right; exists e; split; reflexivity]].
    + unfold catchEvents. cbn [app]. rewrite <- !app_assoc. reflexivity.
    + repeat (constructor; [exact I|]). repeat (apply Forall_app; split); try assumption.
      repeat constructor.
  - eexists (_ :: _ :: _ :: rest ++ W ++ finalizeEventsFailed kp e ++ [EvConsoleError e]), _, _.
    split; [|split; [|right; exists e; split; reflexivity]].
    + unfold catchEvents, finalizeEventsFailed. cbn [app]. rewrite <- !app_assoc.
      reflexivity.
    + repeat (constructor; [exact I|]). repeat (apply Forall_app; split); try assumption;
        repeat constructor.
  - eexists (_ :: _ :: _ :: rest ++ W
               ++ [ EvUpdate (AppendLog "Finalizing program...");
                    EvSend (finalizeTransaction kp (le32 1)) [] (inr h);
                    EvUpdate (AppendLog (template ["Program finalized: "; explorerUrl h])) ]),
      _, _.
    split; [|split; [|left; exists kp; split; reflexivity]].
    + unfold finalizeEventsOk. cbn [app]. rewrite <- !app_assoc. reflexivity.
    + repeat (constructor; [exact I|]). repeat (apply Forall_app; split); try assumption;
        repeat constructor.
Qed.

Lemma replay_cons (ev : Event) (evs : list Event) (init : DeploymentStatus) :
  replay (ev :: evs) init = replay evs (applyEvent init ev).
Proof. reflexivity. Qed.

Lemma firstn_within {A} (k : nat) (l tail : list A) :
  k <= length l -> firstn k (l ++ tail) = firstn k l.
Proof.
  intros Hk. rewrite firstn_app.
  replace (k - length l) with 0 by lia. cbn [firstn]. apply app_nil_r.
Qed.

(** X1. Every call of [deployProgram] shows exactly one toast, as its last
    effect: the "Missing required fields" toast, alone, when the input
    check fails; otherwise the success toast after the success status, or
    the failure toast with the error text after the error status. *)
Theorem every_call_ends_with_one_toast (env : Env) (view : DeployView) :
  exists before t,
    snd (deployProgram env view) = before ++ [EvToast t]
    /\ (forall t', ~ In (EvToast t') before)
    /\ ((~ validated view /\ t = missingFieldsToast /\ before = [])
        \/ (validated view
            /\ exists kp, t = successToast kp
                 /\ forall init, stateAfter env view init = successStatus view kp)
        \/ (validated view
            /\ exists e, t = failedToast e
                 /\ forall init, stateAfter env view init = errorStatus view e)).
Proof.
  destruct (validated_dec view) as [Hval|Hnot].
  - destruct (run_decomposition env Hval) as (before & terminal & t & Hevs & Hrun & Hend).
    exists (EvUpdate (SetTo resetStatus) :: before ++ [EvUpdate (SetTo terminal)]), t.
    assert (Hstate : forall init, stateAfter env view init = terminal).
    { intros init. unfold stateAfter. rewrite Hevs, replay_cons, replay_app. reflexivity. }
    split; [|split].
    + rewrite Hevs. cbn [app]. rewrite <- app_assoc. reflexivity.
    + intros t' [H|Hin]; [discriminate|].
      apply in_app_or in Hin. destruct Hin as [Hin|[H|[]]]; [|discriminate].
      rewrite Forall_forall in Hrun. apply (Hrun _ Hin).
    + destruct Hend as [(kp & -> & ->)|(e & -> & ->)].
      * right. left. split; [assumption|]. exists kp. split; [reflexivity | exact Hstate].
      * right. right. split; [assumption|]. exists e. split; [reflexivity | exact Hstate].
  - exists [], missingFieldsToast. rewrite deployProgram_rejected by assumption.
    split; [reflexivity|]. split; [intros t' []|].
    left. repeat split. assumption.
Qed.

(** Two closures that differ only in the status they captured have the
    same effects up to the terminal update, and show the same toast. *)
Lemma run_up_to_terminal (env : Env) (view : DeployView) (st1 st2 : DeploymentStatus) :
  validated view ->
  exists before u1 u2 t,
    snd (deployProgram env (withDeploymentStatus view st1))
    = EvUpdate (SetTo resetStatus) :: before ++ [EvUpdate (SetTo u1); EvToast t]
    /\ snd (deployProgram env (withDeploymentStatus view st2))
       = EvUpdate (SetTo resetStatus) :: before ++ [EvUpdate (SetTo u2); EvToast t].
Proof.
  intros Hval.
  assert (Hval1 : validated (withDeploymentStatus view st1)) by exact Hval.
  assert (Hval2 : validated (withDeploymentStatus view st2)) by exact Hval.
  rewrite (deployProgram_unfold env Hval1), (deployProgram_unfold env Hval2).
  change (prepare env (withDeploymentStatus view st1)) with (prepare env view).
  change (prepare env (withDeploymentStatus view st2)) with (prepare env view).
  destruct (prepare_shape env view) as (rest & Hshape & _).
  destruct (prepare env view) as [[e|[kp programData]] P]; cbn [snd] in Hshape; subst P.
  - eexists (_ :: _ :: _ :: rest ++ [EvConsoleError e]), _, _, _.
    unfold catchEvents. cbn [app snd]. rewrite <- !app_assoc. split; reflexivity.
  - destruct (writeLoop env kp programData 0) as [[e|[]] W].
    + eexists (_ :: _ :: _ :: rest ++ W ++ [EvConsoleError e]), _, _, _.
      unfold catchEvents. cbn [app snd]. rewrite <- !app_assoc. split; reflexivity.
    + destruct (finalize_cases env (withDeploymentStatus view st1) kp)
        as [(e1 & Hs1 & ->)|(h1 & Hs1 & ->)];
        destruct (finalize_cases env (withDeploymentStatus view st2) kp)
          as [(e2 & Hs2 & ->)|(h2 & Hs2 & ->)];
        try congruence.
      * assert (e2 = e1) by congruence. subst e2.
        eexists (_ :: _ :: _ :: rest ++ W
                  ++ [ EvUpdate (AppendLog "Finalizing program...");
                       EvSend (finalizeTransaction kp (le32 1)) [] (inl e1);
                       EvConsoleError e1 ]), _, _, _.
        unfold catchEvents. cbn [app snd]. rewrite <- !app_assoc. split; reflexivity.
      * assert (h2 = h1) by congruence. subst h2.
        eexists (_ :: _ :: _ :: rest ++ W
                  ++ [ EvUpdate (AppendLog "Finalizing program...");
                       EvSend (finalizeTransaction kp (le32 1)) [] (inr h1);
                       EvUpdate (AppendLog (template ["Program finalized: ";
                                                      explorerUrl h1])) ]), _, _, _.
        cbn [app snd]. rewrite <- !app_assoc. split; reflexivity.
Qed.

(** X2. While a run that passed the input check is in progress, from its
    first update up to the terminal one, the status shown depends neither
    on the status before the run nor on the status the closure captured:
    what an earlier run left is hidden. The terminal update then shows the
    captured log again, followed by one line. *)
Theorem running_status_hides_the_earlier_one
    (env : Env) (view : DeployView) (st1 st2 init1 init2 : DeploymentStatus) (k : nat) :
  validated view ->
  0 < k ->
  k + 2 <= length (snd (deployProgram env (withDeploymentStatus view st1))) ->
  replay (firstn k (snd (deployProgram env (withDeploymentStatus view st1)))) init1
  = replay (firstn k (snd (deployProgram env (withDeploymentStatus view st2)))) init2
  /\ exists line,
       logs (stateAfter env (withDeploymentStatus view st1) init1) = logs st1 ++ [line].
Proof.
  intros Hval Hk Hlen. split.
  - destruct (run_up_to_terminal env st1 st2 Hval)
      as (before & u1 & u2 & t & Hevs1 & Hevs2).
    rewrite Hevs1 in Hlen |- *. rewrite Hevs2.
    cbn [length] in Hlen. rewrite length_app in Hlen. cbn [length] in Hlen.
    destruct k as [|k]; [lia|]. cbn [firstn].
    rewrite !replay_cons, !firstn_within by lia. reflexivity.
  - apply (@terminal_logs env (withDeploymentStatus view st1) init1). exact Hval.
Qed.

Lemma running_status_hides_the_earlier_one_witness :
  replay (firstn 5 (snd (deployProgram libraryEnv
                           (withDeploymentStatus (viewOf (Some (blob 1)))
                              (errorStatus (viewOf (Some (blob 1))) "earlier failure")))))
    (errorStatus (viewOf (Some (blob 1))) "earlier failure")
  = replay (firstn 5 (snd (deployProgram libraryEnv
                             (withDeploymentStatus (viewOf (Some (blob 1))) idleStatus))))
      idleStatus
  /\ exists line,
       logs (stateAfter libraryEnv
               (withDeploymentStatus (viewOf (Some (blob 1)))
                  (errorStatus (viewOf (Some (blob 1))) "earlier failure"))
               (errorStatus (viewOf (Some (blob 1))) "earlier failure"))
       = ["Error: earlier failure"] ++ [line].
Proof.
  apply (@running_status_hides_the_earlier_one libraryEnv (viewOf (Some (blob 1)))).
  - vm_compute. repeat split; reflexivity.
  - lia.
  - vm_compute. lia.
Defined.

(** X3. During a run that passed the input check the Deploy button stays
    disabled: from the first update up to the terminal one the status is
    "deploying", with the starting message and no program id; once the
    terminal update is applied the button is enabled again. *)
Theorem button_disabled_during_run
    (env : Env) (view : DeployView) (init : DeploymentStatus) :
  validated view ->
  (forall k,
      0 < k -> k + 2 <= length (snd (deployProgram env view)) ->
      isDisabled (replay (firstn k (snd (deployProgram env view))) init) = true
      /\ message (replay (firstn k (snd (deployProgram env view))) init)
         = "Starting Solana program deployment..."
      /\ programId (replay (firstn k (snd (deployProgram env view))) init) = None)
  /\ isDisabled (stateAfter env view init) = false.
Proof.
  intros Hval.
  destruct (run_decomposition env Hval) as (before & terminal & t & Hevs & Hrun & Hend).
  split.
  - intros k Hk Hlen. rewrite Hevs in *. cbn [length] in Hlen.
    rewrite length_app in Hlen. cbn [length] in Hlen.
    destruct k as [|k]; [lia|]. cbn [firstn].
    rewrite replay_cons, firstn_within by lia. cbn [applyEvent applyUpdate].
    destruct (replay_running resetStatus (Forall_firstn_of k Hrun))
      as (Hs & Hm & Hp & _).
    unfold isDisabled. rewrite Hs, Hm, Hp. repeat split.
  - unfold stateAfter. rewrite Hevs, replay_cons, replay_app.
    destruct Hend as [(kp & -> & _)|(e & -> & _)]; reflexivity.
Qed.

Lemma button_disabled_during_run_witness :
  isDisabled
    (replay (firstn 17 (snd (deployProgram confirmingEnv (viewOf (Some (blob 1))))))
       idleStatus) = true
  /\ isDisabled (stateAfter confirmingEnv (viewOf (Some (blob 1))) idleStatus) = false.
Proof.
  destruct (@button_disabled_during_run confirmingEnv (viewOf (Some (blob 1))) idleStatus)
    as [Hduring Hafter].
  - vm_compute. repeat split; reflexivity.
  - split; [|exact Hafter].
    apply (Hduring 17); [lia | vm_compute; lia].
Defined.

(** X4. Between the first update of a run and its terminal update the log
    only grows: the log after any number of effects is the log after fewer
    effects followed by more lines, and it starts as the single line
    "Starting Solana program deployment...". *)
Theorem log_grows_during_run
    (env : Env) (view : DeployView) (init : DeploymentStatus) :
  validated view ->
  logs (replay (firstn 1 (snd (deployProgram env view))) init)
  = ["Starting Solana program deployment..."]
  /\ forall j k,
       0 < j -> j <= k -> k + 2 <= length (snd (deployProgram env view)) ->
       exists more,
         logs (replay (firstn k (snd (deployProgram env view))) init)
         = logs (replay (firstn j (snd (deployProgram env view))) init) ++ more.
Proof.
  intros Hval.
  destruct (run_decomposition env Hval) as (before & terminal & t & Hevs & Hrun & _).
  rewrite Hevs. split; [reflexivity|].
  intros j k Hj Hjk Hlen. cbn [length] in Hlen.
  rewrite length_app in Hlen. cbn [length] in Hlen.
  destruct j as [|j]; [lia|]. destruct k as [|k]; [lia|].
  cbn [firstn]. rewrite !replay_cons, !firstn_within by lia.
  pose proof (firstn_skipn j (firstn k before)) as Hsplit.
  rewrite firstn_firstn, Nat.min_l in Hsplit by lia.
  rewrite <- Hsplit, replay_app.
  destruct (replay_running
              (replay (firstn j before) (applyEvent init (EvUpdate (SetTo resetStatus))))
              (Forall_skipn_of j (Forall_firstn_of k Hrun)))
    as (_ & _ & _ & more & Hlogs).
  exists more. exact Hlogs.
Qed.

Lemma log_grows_during_run_witness :
  exists more,
    logs (replay (firstn 17 (snd (deployProgram confirmingEnv (viewOf (Some (blob 1))))))
            idleStatus)
    = logs (replay (firstn 4 (snd (deployProgram confirmingEnv (viewOf (Some (blob 1))))))
              idleStatus) ++ more.
Proof.
  destruct (@log_grows_during_run confirmingEnv (viewOf (Some (blob 1))) idleStatus)
    as [_ Hgrow].
  - vm_compute. repeat split; reflexivity.
  - apply (Hgrow 4 17); [lia | lia | vm_compute; lia].
Defined.

(** ** What was submitted, confirmed and written *)

Lemma sendResults_app (evs1 evs2 : list Event) :
  sendResults (evs1 ++ evs2) = sendResults evs1 ++ sendResults evs2.
Proof. apply flat_map_app. Qed.

Lemma writtenBytes_app (evs1 evs2 : list Event) :
  writtenBytes (evs1 ++ evs2) = writtenBytes evs1 ++ writtenBytes evs2.
Proof. apply flat_map_app. Qed.

Lemma writtenBytes_none (evs : list Event) :
  Forall notWriteSend evs -> writtenBytes evs = [].
Proof.
  induction 1 as [|ev evs Hev _ IH]; [reflexivity|].
  unfold writtenBytes in *. cbn [flat_map]. rewrite IH.
  destruct ev as [| | | | | |tx s [e|h]]; try reflexivity.
  cbn in Hev. rewrite Hev. reflexivity.
Qed.

Lemma prepare_writes_nothing (env : Env) (view : DeployView) (r : Result (Keypair * Buffer.t))
    (P : list Event) :
  prepare env view = (r, P) ->
  writtenBytes P = [] /\ writeOffsets P = []
  /\ forall tx s r', In (EvSend tx s r') P -> loaderData tx = None.
Proof.
  intros HP. pose proof (prepare_events env view) as Hprep.
  rewrite HP in Hprep. cbn [snd] in Hprep.
  assert (Hnone : Forall notWriteSend P).
  { eapply Forall_impl; [apply preludeEvent_notWriteSend | exact Hprep]. }
  split; [apply writtenBytes_none; assumption|].
  split; [apply writeOffsets_none; assumption|].
  intros tx s r' Hin. rewrite Forall_forall in Hprep. apply (Hprep _ Hin).
Qed.

(** A run in which a loader instruction was submitted prepared
    successfully, entered the loop, and ended in one of three ways. *)
Lemma loader_outcome (env : Env) (view : DeployView)
    (tx : Transaction) (signers : list Keypair) (r : Result string) :
  In (EvSend tx signers r) (snd (deployProgram env view)) ->
  loaderData tx <> None ->
  exists kp data P W rw R,
    prepare env view = (inr (kp, data), P)
    /\ WriteTrace env kp data 0 rw W
    /\ snd (deployProgram env view) = P ++ W ++ R
    /\ ((exists e, rw = inl e /\ R = catchEvents view e)
        \/ (exists e, rw = inr tt
                      /\ sendAndConfirm env (finalizeTransaction kp (le32 1)) [] = inl e
                      /\ R = finalizeEventsFailed kp e ++ catchEvents view e)
        \/ (exists h, rw = inr tt
                      /\ sendAndConfirm env (finalizeTransaction kp (le32 1)) [] = inr h
                      /\ R = finalizeEventsOk view kp h)).
Proof.
  intros Hin Hloader.
  destruct (deployProgram_outcome env view) as [_ Hout].
  destruct Hout as [Hnot | e P _ HP | kp programData P W e _ HP HW
                   | kp programData P W e _ HP HW Hsend
                   | kp programData P W h _ HP HW Hsend].
  - destruct Hin as [H|[]]. discriminate.
  - exfalso. apply in_app_or in Hin. destruct Hin as [Hin|Hin].
    + destruct (@prepare_writes_nothing _ _ _ _ HP) as (_ & _ & Hnone).
      apply Hloader, (Hnone _ _ _ Hin).
    + apply (@catch_send _ _ _ _ _ Hin).
  - exists kp, programData, P, W, (inl e), (catchEvents view e).
    repeat split; try assumption. left. exists e. split; reflexivity.
  - exists kp, programData, P, W, (inr tt), (finalizeEventsFailed kp e ++ catchEvents view e).
    repeat split; try assumption. right. left. exists e. repeat split. assumption.
  - exists kp, programData, P, W, (inr tt), (finalizeEventsOk view kp h).
    repeat split; try assumption. right. right. exists h. repeat split. assumption.
Qed.

(** A run that set the success status went through every stage. *)
Lemma success_outcome (env : Env) (view : DeployView) (st : DeploymentStatus) :
  In (EvUpdate (SetTo st)) (snd (deployProgram env view)) ->
  status st = success ->
  exists kp data P W h,
    prepare env view = (inr (kp, data), P)
    /\ WriteTrace env kp data 0 (inr tt) W
    /\ sendAndConfirm env (finalizeTransaction kp (le32 1)) [] = inr h
    /\ snd (deployProgram env view) = P ++ W ++ finalizeEventsOk view kp h
    /\ st = successStatus view kp.
Proof.
  intros Hin Hsuccess.
  destruct (deployProgram_outcome env view) as [_ Hout].
  pose proof (prepare_events env view) as Hprep.
  assert (Hprelude : forall P, snd (prepare env view) = P -> ~ In (EvUpdate (SetTo st)) P).
  { intros P HP HinP. rewrite <- HP in HinP. rewrite Forall_forall in Hprep.
    apply Hprep in HinP. cbn in HinP. congruence. }
  assert (Hcatch : forall e, ~ In (EvUpdate (SetTo st)) (catchEvents view e)).
  { intros e [H|[H|[H|[]]]]; try discriminate.
    injection H as <-. discriminate. }
  destruct Hout as [Hnot | e P _ HP | kp programData P W e _ HP HW
                   | kp programData P W e _ HP HW Hsend
                   | kp programData P W h _ HP HW Hsend];
    try (specialize (Hprelude P ltac:(rewrite HP; reflexivity))).
  - destruct Hin as [H|[]]. discriminate.
  - apply in_app_or in Hin. destruct Hin as [Hin|Hin]; [contradiction|].
    destruct (Hcatch _ Hin).
  - apply in_app_or in Hin. destruct Hin as [Hin|Hin]; [contradiction|].
    apply in_app_or in Hin. destruct Hin as [Hin|Hin];
      [destruct (trace_updates HW _ Hin) | destruct (Hcatch _ Hin)].
  - apply in_app_or in Hin. destruct Hin as [Hin|Hin]; [contradiction|].
    apply in_app_or in Hin. destruct Hin as [Hin|Hin];
      [destruct (trace_updates HW _ Hin)|].
    apply in_app_or in Hin. destruct Hin as [Hin|Hin]; [|destruct (Hcatch _ Hin)].
    destruct Hin as [H|[H|[]]]; discriminate.
  - apply in_app_or in Hin. destruct Hin as [Hin|Hin]; [contradiction|].
    apply in_app_or in Hin. destruct Hin as [Hin|Hin];
      [destruct (trace_updates HW _ Hin)|].
    destruct Hin as [H|[H|[H|[H|[H|[]]]]]]; try discriminate.
    injection H as <-.
    exists kp, programData, P, W, h. repeat split; assumption.
Qed.

(** The events of a run that went through every stage, summed up. *)
Lemma complete_run (env : Env) (view : DeployView) (kp : Keypair) (data : Buffer.t)
    (P W : list Event) (h : string) :
  prepare env view = (inr (kp, data), P) ->
  WriteTrace env kp data 0 (inr tt) W ->
  exists connection rent,
    programData view = Some data
    /\ connectionOf env view = inr connection
    /\ minimumBalance env (length data) = inr rent
    /\ submissions (P ++ W ++ finalizeEventsOk view kp h)
       = (createAccountTransaction {| toBase58 := getAccount connection |} kp rent data, [])
           :: map (fun c => (chunkTransaction kp data (fst c), [])) (chunks data 0)
           ++ [(finalizeTransaction kp (le32 1), [])]
    /\ Forall confirmed (sendResults (P ++ W ++ finalizeEventsOk view kp h))
    /\ length (sendResults (P ++ W ++ finalizeEventsOk view kp h))
       = length (chunks data 0) + 2
    /\ writeOffsets (P ++ W ++ finalizeEventsOk view kp h) = map fst (chunks data 0)
    /\ writtenBytes (P ++ W ++ finalizeEventsOk view kp h) = data.
Proof.
  intros HP HW.
  destruct (@prepare_create _ _ _ _ _ HP) as (connection & rent & h0 & Hconn & Hrent & Hsub & Hres).
  destruct (@prepare_ok _ _ _ _ _ HP) as (Hdata & _).
  destruct (@prepare_writes_nothing _ _ _ _ HP) as (Hbytes & Hoffsets & _).
  destruct (trace_complete HW eq_refl) as (HWsub & HWres & HWoff).
  destruct (trace_written HW) as (_ & HWbytes).
  exists connection, rent.
  split; [assumption|]. split; [assumption|]. split; [assumption|].
  split; [|split; [|split; [|split]]].
  - rewrite !submissions_app, Hsub, HWsub. reflexivity.
  - rewrite !sendResults_app, Hres. constructor; [exists h0; reflexivity|].
    apply Forall_app. split; [assumption|].
    repeat constructor. exists h. reflexivity.
  - rewrite !sendResults_app, Hres.
    assert (Hlen : length (sendResults W) = length (chunks data 0)).
    { clear - HW. remember (inr tt) as r eqn:Hr in HW.
      induction HW as [offset Hge | offset Hlt Hbig | offset e Hlt Hfit Hsend
                      | offset h r evs Hlt Hfit Hsend Hrest IH]; try discriminate.
      - rewrite chunks_done by assumption. reflexivity.
      - rewrite chunks_step by assumption. unfold sendResults in *. cbn [flat_map app length].
        rewrite (IH Hr). reflexivity. }
    cbn [length app]. rewrite length_app, Hlen. cbn. lia.
  - rewrite !writeOffsets_app, Hoffsets, HWoff. cbn [app]. apply app_nil_r.
  - rewrite !writtenBytes_app, Hbytes, (HWbytes eq_refl). cbn [app skipn]. apply app_nil_r.
Qed.

(** After a successful preparation and a loop that ended normally, every
    submission so far was confirmed and the whole program data was
    written, chunk after chunk. *)
Lemma chunks_all_written (env : Env) (view : DeployView) (kp : Keypair) (data : Buffer.t)
    (P W : list Event) :
  prepare env view = (inr (kp, data), P) ->
  WriteTrace env kp data 0 (inr tt) W ->
  programData view = Some data
  /\ Forall confirmed (sendResults (P ++ W))
  /\ writeOffsets (P ++ W) = map fst (chunks data 0)
  /\ writtenBytes (P ++ W) = data.
Proof.
  intros HP HW.
  destruct (@prepare_create _ _ _ _ _ HP) as (connection & rent & h0 & _ & _ & _ & Hres).
  destruct (@prepare_ok _ _ _ _ _ HP) as (Hdata & _).
  destruct (@prepare_writes_nothing _ _ _ _ HP) as (Hbytes & Hoffsets & _).
  destruct (trace_complete HW eq_refl) as (_ & HWres & HWoff).
  destruct (trace_written HW) as (_ & HWbytes).
  split; [assumption|]. split; [|split].
  - rewrite sendResults_app, Hres. constructor; [exists h0; reflexivity | assumption].
  - rewrite writeOffsets_app, Hoffsets, HWoff. reflexivity.
  - rewrite writtenBytes_app, Hbytes, (HWbytes eq_refl). reflexivity.
Qed.

(** When [partialSign] throws, the preparation fails before its only
    submission. *)
Lemma prepare_unsigned (env : Env) (view : DeployView) :
  (forall tx kp, partialSignRejected env tx kp <> None) ->
  exists e P, prepare env view = (inl e, P) /\ submissions P = [].
Proof.
  intros Hsign. unfold prepare. run_monad. cbn [isDevnet].
  repeat ask env view;
    try (exfalso; eapply Hsign; eassumption);
    do 2 eexists; split; reflexivity.
Qed.

(** X5. Nothing is submitted before the account-creation transaction has
    been signed locally: when [partialSign] throws, a run that passed the
    input check submits no transaction at all, writes nothing, and ends in
    the error state. *)
Theorem nothing_submitted_when_signing_throws
    (env : Env) (view : DeployView) (init : DeploymentStatus) :
  validated view ->
  (forall tx kp, partialSignRejected env tx kp <> None) ->
  submissions (snd (deployProgram env view)) = []
  /\ writtenBytes (snd (deployProgram env view)) = []
  /\ exists e, stateAfter env view init = errorStatus view e.
Proof.
  intros Hval Hsign. unfold stateAfter.
  rewrite (deployProgram_unfold env Hval).
  destruct (@prepare_unsigned env view Hsign) as (e & P & HP & Hsub).
  destruct (@prepare_writes_nothing _ _ _ _ HP) as (Hbytes & _).
  rewrite HP. cbn [snd].
  rewrite submissions_app, writtenBytes_app, replay_app, Hsub, Hbytes.
  split; [reflexivity|]. split; [reflexivity|]. exists e. reflexivity.
Qed.

Lemma nothing_submitted_when_signing_throws_witness :
  submissions (snd (deployProgram libraryEnv (viewOf (Some (blob 2000))))) = []
  /\ writtenBytes (snd (deployProgram libraryEnv (viewOf (Some (blob 2000))))) = []
  /\ exists e,
       stateAfter libraryEnv (viewOf (Some (blob 2000))) idleStatus
       = errorStatus (viewOf (Some (blob 2000))) e.
Proof.
  apply (@nothing_submitted_when_signing_throws libraryEnv (viewOf (Some (blob 2000)))
           idleStatus).
  - vm_compute. repeat split; reflexivity.
  - intros tx kp. discriminate.
Defined.

(** X6. The success status is set only when everything was confirmed: in a
    run that sets it, every submission (the account creation, one write per
    chunk, the finalize transaction) was confirmed, the writes went through
    every chunk offset in order, and the bytes written are exactly the
    program data. *)
Theorem success_means_everything_confirmed
    (env : Env) (view : DeployView) (st : DeploymentStatus) :
  In (EvUpdate (SetTo st)) (snd (deployProgram env view)) ->
  status st = success ->
  exists data,
    programData view = Some data
    /\ Forall confirmed (sendResults (snd (deployProgram env view)))
    /\ length (sendResults (snd (deployProgram env view))) = length (chunks data 0) + 2
    /\ writeOffsets (snd (deployProgram env view)) = map fst (chunks data 0)
    /\ writtenBytes (snd (deployProgram env view)) = data.
Proof.
  intros Hin Hsuccess.
  destruct (success_outcome env view st Hin Hsuccess)
    as (kp & data & P & W & h & HP & HW & _ & Hevs & _).
  destruct (@complete_run env view kp data P W h HP HW)
    as (_ & _ & Hdata & _ & _ & _ & Hres & Hlen & Hoff & Hbytes).
  exists data. rewrite Hevs. repeat split; assumption.
Qed.

Lemma success_means_everything_confirmed_witness :
  Forall confirmed (sendResults (snd (deployProgram confirmingEnv (viewOf (Some (blob 1))))))
  /\ writtenBytes (snd (deployProgram confirmingEnv (viewOf (Some (blob 1))))) = blob 1.
Proof.
  destruct (@success_means_everything_confirmed confirmingEnv (viewOf (Some (blob 1)))
              (successStatus (viewOf (Some (blob 1)))
                 vaultKeypair))
    as (data & Hdata & Hres & _ & _ & Hbytes).
  - vm_compute. do 21 right. left. reflexivity.
  - reflexivity.
  - split; [exact Hres|]. injection Hdata as <-. exact Hbytes.
Defined.

Lemma isFinalize_loader (tx : Transaction) : isFinalize tx = true -> loaderData tx <> None.
Proof. unfold isFinalize. destruct (loaderData tx); [discriminate | discriminate]. Qed.

Lemma writeOffsetOf_loader (tx : Transaction) (o : nat) :
  writeOffsetOf tx = Some o -> loaderData tx <> None.
Proof. unfold writeOffsetOf. destruct (loaderData tx); [discriminate | discriminate]. Qed.

(** X7. The finalize transaction is submitted only after every chunk: when
    a run submits it, all the submissions before it were confirmed, they
    wrote the whole program data through every chunk offset in order, and
    nothing is submitted after it. *)
Theorem finalize_only_after_every_chunk
    (env : Env) (view : DeployView)
    (tx : Transaction) (signers : list Keypair) (r : Result string) :
  In (EvSend tx signers r) (snd (deployProgram env view)) ->
  isFinalize tx = true ->
  exists data pre post,
    programData view = Some data
    /\ snd (deployProgram env view) = pre ++ EvSend tx signers r :: post
    /\ Forall confirmed (sendResults pre)
    /\ writeOffsets pre = map fst (chunks data 0)
    /\ writtenBytes pre = data
    /\ sendResults post = []
    /\ signers = []
    /\ r = sendAndConfirm env tx [].
Proof.
  intros Hin Hfin.
  destruct (loader_outcome env view _ _ _ Hin (isFinalize_loader _ Hfin))
    as (kp & data & P & W & rw & R & HP & HW & Hevs & Hend).
  rewrite Hevs in Hin |- *.
  destruct (@prepare_writes_nothing _ _ _ _ HP) as (_ & _ & HnoneP).
  assert (HinR : In (EvSend tx signers r) R).
  { apply in_app_or in Hin. destruct Hin as [Hin|Hin].
    - apply HnoneP in Hin. destruct (isFinalize_loader _ Hfin Hin).
    - apply in_app_or in Hin. destruct Hin as [Hin|Hin]; [|assumption].
      destruct (trace_sends HW _ _ _ Hin) as (o & _ & _ & Hnot & _). congruence. }
  assert (Hpre : forall e0, rw = inr tt ->
             programData view = Some data
             /\ Forall confirmed (sendResults ((P ++ W) ++ [EvUpdate (AppendLog e0)]))
             /\ writeOffsets ((P ++ W) ++ [EvUpdate (AppendLog e0)]) = map fst (chunks data 0)
             /\ writtenBytes ((P ++ W) ++ [EvUpdate (AppendLog e0)]) = data).
  { intros e0 ->. destruct (chunks_all_written _ HP HW) as (Hd & Hres & Hoff & Hbytes).
    rewrite sendResults_app, writeOffsets_app, writtenBytes_app, Hoff, Hbytes.
    cbn. rewrite !app_nil_r. repeat split; assumption. }
  destruct Hend as [(e & -> & ->)|[(e & Hrw & Hsend & ->)|(h & Hrw & Hsend & ->)]].
  - destruct (@catch_send _ _ _ _ _ HinR).
  - apply in_app_or in HinR. destruct HinR as [HinR|HinR];
      [|destruct (@catch_send _ _ _ _ _ HinR)].
    destruct HinR as [H|[H|[]]]; [discriminate|]. injection H as <- <- <-.
    destruct (Hpre "Finalizing program..." Hrw) as (Hd & Hres & Hoff & Hbytes).
    exists data, ((P ++ W) ++ [EvUpdate (AppendLog "Finalizing program...")]),
      (catchEvents view e).
    split; [assumption|]. split.
    { unfold finalizeEventsFailed. rewrite <- !app_assoc. reflexivity. }
    repeat split; try assumption. symmetry. assumption.
  - destruct HinR as [H|[H|[H|[H|[H|[]]]]]]; try discriminate. injection H as <- <- <-.
    destruct (Hpre "Finalizing program..." Hrw) as (Hd & Hres & Hoff & Hbytes).
    exists data, ((P ++ W) ++ [EvUpdate (AppendLog "Finalizing program...")]),
      [ EvUpdate (AppendLog (template ["Program finalized: "; explorerUrl h]));
        EvUpdate (SetTo (successStatus view kp));
        EvToast (successToast kp) ].
    split; [assumption|]. split.
    { unfold finalizeEventsOk. rewrite <- !app_assoc. reflexivity. }
    repeat split; try assumption. symmetry. assumption.
Qed.

Lemma finalize_only_after_every_chunk_witness :
  exists data pre post,
    programData (viewOf (Some (blob 1000))) = Some data
    /\ snd (deployProgram confirmingEnv (viewOf (Some (blob 1000))))
       = pre ++ EvSend (finalizeTransaction
                          vaultKeypair (le32 1)) [] (inr "txhash")
                :: post
    /\ writeOffsets pre = map fst (chunks data 0)
    /\ writtenBytes pre = data.
Proof.
  destruct (@finalize_only_after_every_chunk confirmingEnv (viewOf (Some (blob 1000)))
              (finalizeTransaction
                 vaultKeypair (le32 1)) [] (inr "txhash"))
    as (data & pre & post & Hdata & Hevs & _ & Hoff & Hbytes & _).
  - vm_compute. do 21 right. left. reflexivity.
  - reflexivity.
  - exists data, pre, post. repeat split; assumption.
Defined.

(** X8. Every write transaction submitted in any run carries the bytes of
    the uploaded program data found at its offset: the offset is a multiple
    of 900 below the data length and fits in 32 bits, the payload is the
    discriminant 0, the offset and the slice of the data from the offset to
    the offset plus 900, no signer is handed along, and the result recorded
    is the answer of the ledger to that transaction. *)
Theorem writes_carry_the_program_data
    (env : Env) (view : DeployView)
    (tx : Transaction) (signers : list Keypair) (r : Result string) (o : nat) :
  In (EvSend tx signers r) (snd (deployProgram env view)) ->
  writeOffsetOf tx = Some o ->
  exists kp data,
    programData view = Some data
    /\ tx = chunkTransaction kp data o
    /\ loaderData tx
       = Some (le32 0 ++ le32 (Z.of_nat o) ++ Buffer.slice data o (o + chunkSize))
    /\ o < length data
    /\ o mod chunkSize = 0
    /\ (Z.of_nat o <= 4294967295)%Z
    /\ signers = []
    /\ r = sendAndConfirm env tx [].
Proof.
  intros Hin Ho.
  destruct (loader_outcome env view _ _ _ Hin (writeOffsetOf_loader _ Ho))
    as (kp & data & P & W & rw & R & HP & HW & Hevs & Hend).
  rewrite Hevs in Hin.
  destruct (@prepare_writes_nothing _ _ _ _ HP) as (_ & _ & HnoneP).
  destruct (@prepare_ok _ _ _ _ _ HP) as (Hdata & _).
  assert (HinW : In (EvSend tx signers r) W).
  { apply in_app_or in Hin. destruct Hin as [Hin|Hin].
    - apply HnoneP in Hin. destruct (writeOffsetOf_loader _ Ho Hin).
    - apply in_app_or in Hin. destruct Hin as [Hin|Hin]; [assumption|]. exfalso.
      destruct Hend as [(e & -> & ->)|[(e & Hrw & Hsend & ->)|(h & Hrw & Hsend & ->)]].
      + apply (@catch_send _ _ _ _ _ Hin).
      + apply in_app_or in Hin. destruct Hin as [Hin|Hin];
          [|apply (@catch_send _ _ _ _ _ Hin)].
        destruct Hin as [H|[H|[]]]; [discriminate|]. injection H as <- <- <-.
        rewrite writeOffsetOf_finalizeTransaction in Ho. discriminate.
      + destruct Hin as [H|[H|[H|[H|[H|[]]]]]]; try discriminate. injection H as <- <- <-.
        rewrite writeOffsetOf_finalizeTransaction in Ho. discriminate. }
  destruct (trace_detail HW) as [_ Hsends].
  destruct (Hsends _ _ _ HinW) as (i & Htx & Hlen & Hz & Hs & Hr).
  cbn [Nat.add] in *.
  assert (o = i * chunkSize).
  { rewrite Htx, chunkTransaction_offset in Ho by assumption. congruence. }
  subst o. exists kp, data.
  split; [assumption|]. split; [assumption|].
  split; [rewrite Htx; apply chunkTransaction_payload|].
  split; [assumption|].
  split; [apply Nat.Div0.mod_mul|].
  repeat split; assumption.
Qed.

Lemma writes_carry_the_program_data_witness :
  exists kp data,
    programData (viewOf (Some (blob 1000))) = Some data
    /\ chunkTransaction vaultKeypair (blob 1000) 900
       = chunkTransaction kp data 900
    /\ 900 < length data.
Proof.
  destruct (@writes_carry_the_program_data confirmingEnv (viewOf (Some (blob 1000)))
              (chunkTransaction vaultKeypair (blob 1000) 900)
              [] (inr "txhash") 900)
    as (kp & data & Hdata & Htx & _ & Hlen & _).
  - vm_compute. do 18 right. left. reflexivity.
  - vm_compute. reflexivity.
  - exists kp, data. repeat split; assumption.
Defined.



(** A loop in which the write at offset [o] failed had confirmed the bytes
    from its entry offset up to [o], and no others. *)
Lemma trace_failed_at env kp programData offset r evs :
  WriteTrace env kp programData offset r evs ->
  forall tx signers e o,
    In (EvSend tx signers (inl e)) evs ->
    writeOffsetOf tx = Some o ->
    offset <= o
    /\ writtenBytes evs = firstn (o - offset) (skipn offset programData).
Proof.
  induction 1 as [offset Hge | offset Hlt Hbig | offset e0 Hlt Hfit Hsend
                 | offset h r evs Hlt Hfit Hsend Hrest IH];
    intros tx signers e o Hin Ho.
  - destruct Hin.
  - destruct Hin.
  - destruct Hin as [Heq|[]]. injection Heq as <- <- <-.
    rewrite chunkTransaction_offset in Ho by assumption. injection Ho as <-.
    rewrite Nat.sub_diag. split; [lia | reflexivity].
  - destruct Hin as [Heq|[Heq|Hin]]; [discriminate | discriminate |].
    destruct (IH _ _ _ _ Hin Ho) as [Hle Hbytes]. split; [lia|].
    assert (Hhead : writtenBytes
                      (EvSend (chunkTransaction kp programData offset) [] (inr h)
                         :: EvUpdate (AppendLog (wroteChunkLog offset h)) :: evs)
                    = Buffer.slice programData offset (offset + chunkSize)
                        ++ writtenBytes evs).
    { unfold writtenBytes. cbn [flat_map].
      rewrite chunkTransaction_offset, chunkTransaction_payload by assumption.
      reflexivity. }
    rewrite Hhead, Hbytes.
    replace (o - offset) with (chunkSize + (o - (offset + chunkSize))) by lia.
    rewrite firstn_plus. unfold Buffer.slice.
    replace (offset + chunkSize - offset) with chunkSize by lia.
    rewrite skipn_skipn, (Nat.add_comm chunkSize offset). reflexivity.
Qed.

(** The bytes confirmed in a run are a prefix of the program data, cut at
    a chunk boundary. *)
Lemma writtenBytes_prefix (env : Env) (view : DeployView) (data : Buffer.t) :
  programData view = Some data ->
  exists k, writtenBytes (snd (deployProgram env view)) = firstn (k * chunkSize) data.
Proof.
  intros Hdata.
  destruct (deployProgram_outcome env view) as [_ Hout].
  assert (Hrun : forall kp programData P W rw R,
             prepare env view = (inr (kp, programData), P) ->
             WriteTrace env kp programData 0 rw W ->
             writtenBytes R = [] ->
             exists k, writtenBytes (P ++ W ++ R) = firstn (k * chunkSize) data).
  { intros kp programData P W rw R HP HW HR.
    destruct (@prepare_writes_nothing _ _ _ _ HP) as (HbytesP & _).
    destruct (@prepare_ok _ _ _ _ _ HP) as (Hdata' & _).
    assert (programData = data) by congruence. subst programData.
    destruct (trace_written HW) as ((k & Hk) & _).
    exists k. rewrite !writtenBytes_app, HbytesP, Hk, HR. cbn [app skipn]. apply app_nil_r. }
  destruct Hout as [Hnot | e P _ HP | kp programData P W e _ HP HW
                   | kp programData P W e _ HP HW Hsend
                   | kp programData P W h _ HP HW Hsend].
  - exists 0. reflexivity.
  - exists 0. destruct (@prepare_writes_nothing _ _ _ _ HP) as (HbytesP & _).
    rewrite writtenBytes_app, HbytesP. reflexivity.
  - apply (Hrun _ _ _ _ _ _ HP HW). reflexivity.
  - apply (Hrun _ _ _ _ _ _ HP HW). reflexivity.
  - apply (Hrun _ _ _ _ _ _ HP HW). reflexivity.
Qed.

(** X10. Whatever happens in a run, the bytes of the confirmed writes are a
    prefix of the program data, cut at a multiple of 900 bytes (or the whole
    data): a partial deployment never holds bytes out of place. *)
Theorem confirmed_writes_form_a_prefix
    (env : Env) (view : DeployView) (data : Buffer.t) :
  programData view = Some data ->
  exists k, writtenBytes (snd (deployProgram env view)) = firstn (k * chunkSize) data.
Proof. apply writtenBytes_prefix. Qed.

Lemma confirmed_writes_form_a_prefix_witness :
  exists k,
    writtenBytes (snd (deployProgram rejectingEnv (viewOf (Some (blob 2000)))))
    = firstn (k * chunkSize) (blob 2000).
Proof.
  apply (@confirmed_writes_form_a_prefix rejectingEnv (viewOf (Some (blob 2000)))).
  reflexivity.
Defined.

(** X11. When the write of the chunk at offset o fails, the bytes confirmed
    before it are exactly the first o bytes of the program data: o is the
    offset a later attempt would have to resume from. *)
Theorem failed_write_leaves_the_bytes_before_it
    (env : Env) (view : DeployView) (data : Buffer.t)
    (tx : Transaction) (signers : list Keypair) (e : string) (o : nat) :
  programData view = Some data ->
  In (EvSend tx signers (inl e)) (snd (deployProgram env view)) ->
  writeOffsetOf tx = Some o ->
  writtenBytes (snd (deployProgram env view)) = firstn o data
  /\ length (writtenBytes (snd (deployProgram env view))) = o.
Proof.
  intros Hdata Hin Ho.
  destruct (loader_outcome env view _ _ _ Hin (writeOffsetOf_loader _ Ho))
    as (kp & programData & P & W & rw & R & HP & HW & Hevs & Hend).
  rewrite Hevs in Hin |- *.
  destruct (@prepare_writes_nothing _ _ _ _ HP) as (HbytesP & _ & HnoneP).
  destruct (@prepare_ok _ _ _ _ _ HP) as (Hdata' & _).
  assert (programData = data) by congruence. subst programData.
  assert (HR : writtenBytes R = []).
  { destruct Hend as [(e0 & -> & ->)|[(e0 & Hrw & Hsend & ->)|(h & Hrw & Hsend & ->)]];
      reflexivity. }
  assert (HinW : In (EvSend tx signers (inl e)) W).
  { apply in_app_or in Hin. destruct Hin as [Hin|Hin].
    - apply HnoneP in Hin. destruct (writeOffsetOf_loader _ Ho Hin).
    - apply in_app_or in Hin. destruct Hin as [Hin|Hin]; [assumption|]. exfalso.
      destruct Hend as [(e0 & -> & ->)|[(e0 & Hrw & Hsend & ->)|(h & Hrw & Hsend & ->)]].
      + apply (@catch_send _ _ _ _ _ Hin).
      + apply in_app_or in Hin. destruct Hin as [Hin|Hin];
          [|apply (@catch_send _ _ _ _ _ Hin)].
        destruct Hin as [H|[H|[]]]; [discriminate|]. injection H as <- _ _.
        rewrite writeOffsetOf_finalizeTransaction in Ho. discriminate.
      + destruct Hin as [H|[H|[H|[H|[H|[]]]]]]; discriminate. }
  destruct (@trace_failed_at _ _ _ _ _ _ HW _ _ _ _ HinW Ho) as [_ Hbytes].
  destruct (trace_detail HW) as [_ Hsends].
  destruct (Hsends _ _ _ HinW) as (i & Htx & Hlen & Hz & _).
  cbn [Nat.add] in *.
  assert (o = i * chunkSize).
  { rewrite Htx, chunkTransaction_offset in Ho by assumption. congruence. }
  rewrite !writtenBytes_app, HbytesP, Hbytes, HR, Nat.sub_0_r.
  cbn [app skipn]. rewrite app_nil_r. split; [reflexivity|].
  rewrite length_firstn. lia.
Qed.

Lemma failed_write_leaves_the_bytes_before_it_witness :
  writtenBytes (snd (deployProgram rejectingEnv (viewOf (Some (blob 2000)))))
  = firstn 900 (blob 2000).
Proof.
  destruct (@failed_write_leaves_the_bytes_before_it rejectingEnv
              (viewOf (Some (blob 2000))) (blob 2000)
              (chunkTransaction vaultKeypair (blob 2000) 900)
              [] "Transaction rejected by signer" 900)
    as [Hbytes _].
  - reflexivity.
  - vm_compute. do 18 right. left. reflexivity.
  - vm_compute. reflexivity.
  - exact Hbytes.
Defined.

Lemma prepare_fallback_log (env : Env) (view : DeployView) (kp : Keypair) (data : Buffer.t)
    (P : list Event) (e : string) :
  prepare env view = (inr (kp, data), P) ->
  keypairRejected env = Some e ->
  In (EvUpdate (AppendLog
        "Unable to use connected wallet as program keypair, generating new one...")) P
  /\ In (EvUpdate (AppendLog (template ["Generated new program keypair: ";
                                        toBase58 (publicKey (keypairGenerate env))]))) P.
Proof.
  unfold prepare. run_monad. cbn [isDevnet].
  repeat ask env view; try discriminate; try congruence;
    intros H _; injection H as <- <- <-;
    (split; [do 5 right | do 6 right]); left; reflexivity.
Qed.

(** X12. When the key library rejects the wallet-derived key pair, its
    error is swallowed: the run goes on with a freshly generated key pair
    and says so in the log; the account is created at the generated
    address while the vault account pays; and the program id of the
    success status is the generated address, not the payer's. *)
Theorem rejected_wallet_key_falls_back
    (env : Env) (view : DeployView) (e : string) (st : DeploymentStatus) :
  keypairRejected env = Some e ->
  In (EvUpdate (SetTo st)) (snd (deployProgram env view)) ->
  status st = success ->
  programId st = Some (toBase58 (publicKey (keypairGenerate env)))
  /\ In (EvUpdate (AppendLog
           "Unable to use connected wallet as program keypair, generating new one..."))
        (snd (deployProgram env view))
  /\ exists connection rent data rest,
       connectionOf env view = inr connection
       /\ submissions (snd (deployProgram env view))
          = (createAccountTransaction {| toBase58 := getAccount connection |}
               (keypairGenerate env) rent data, [])
              :: rest.
Proof.
  intros Hrejected Hin Hsuccess.
  destruct (success_outcome env view st Hin Hsuccess)
    as (kp & data & P & W & h & HP & HW & _ & Hevs & ->).
  destruct (@prepare_ok _ _ _ _ _ HP) as (_ & connection0 & _ & Hkp).
  rewrite Hrejected in Hkp. subst kp.
  destruct (@prepare_create _ _ _ _ _ HP) as (connection & rent & h0 & Hconn & _ & Hsub & _).
  destruct (prepare_fallback_log _ _ HP Hrejected) as [Hlog _].
  rewrite Hevs. split; [reflexivity|]. split.
  - apply in_or_app. left. assumption.
  - exists connection, rent, data,
      (submissions (W ++ finalizeEventsOk view (keypairGenerate env) h)).
    split; [assumption|].
    rewrite submissions_app, Hsub. reflexivity.
Qed.

Lemma rejected_wallet_key_falls_back_witness :
  programId (successStatus (viewOf (Some (blob 1))) (keypairGenerate fallbackEnv))
  = Some freshAddress
  /\ In (EvUpdate (AppendLog
           "Unable to use connected wallet as program keypair, generating new one..."))
        (snd (deployProgram fallbackEnv (viewOf (Some (blob 1))))).
Proof.
  destruct (@rejected_wallet_key_falls_back fallbackEnv (viewOf (Some (blob 1)))
              "bad secret key size"
              (successStatus (viewOf (Some (blob 1))) (keypairGenerate fallbackEnv)))
    as (Hid & Hlog & _).
  - reflexivity.
  - vm_compute. do 22 right. left. reflexivity.
  - reflexivity.
  - split; [exact Hid | exact Hlog].
Defined.

(** ** The Program Path field *)

Lemma validated_path (view : DeployView) (path : string) :
  validated (withProgramPath view path) <-> validated view.
Proof. unfold validated, withProgramPath. cbn. tauto. Qed.

Lemma prepare_path (env : Env) (view : DeployView) (path : string) :
  fst (prepare env (withProgramPath view path)) = fst (prepare env view)
  /\ submissions (snd (prepare env (withProgramPath view path)))
     = submissions (snd (prepare env view))
  /\ sendResults (snd (prepare env (withProgramPath view path)))
     = sendResults (snd (prepare env view)).
Proof.
  unfold prepare, withProgramPath.
  cbn [apiKey apiSecretPath vaultAccountId programPath programData deploymentStatus].
  run_monad. cbn [isDevnet].
  repeat ask env view; repeat split; reflexivity.
Qed.

(** X13. The text of the Program Path field is only displayed: two calls
    of [deployProgram] that differ in nothing but that text submit the same
    transactions, get the same answers and end in the same status. *)
Theorem program_path_is_cosmetic
    (env : Env) (view : DeployView) (path : string) (init : DeploymentStatus) :
  submissions (snd (deployProgram env (withProgramPath view path)))
  = submissions (snd (deployProgram env view))
  /\ sendResults (snd (deployProgram env (withProgramPath view path)))
     = sendResults (snd (deployProgram env view))
  /\ stateAfter env (withProgramPath view path) init = stateAfter env view init.
Proof.
  unfold stateAfter.
  destruct (validated_dec view) as [Hval|Hnot].
  - rewrite (deployProgram_unfold env (proj2 (validated_path view path) Hval)).
    rewrite (deployProgram_unfold env Hval).
    destruct (prepare_path env view path) as (Hfst & Hsub & Hres).
    destruct (prepare env view) as [[e|[kp data]] P];
      destruct (prepare env (withProgramPath view path)) as [[e'|[kp' data']] P'];
      cbn [fst snd] in Hfst, Hsub, Hres; try discriminate.
    + injection Hfst as ->. cbn [snd].
      rewrite !submissions_app, !sendResults_app, !replay_app, Hsub, Hres.
      repeat split.
    + injection Hfst as -> ->.
      destruct (writeLoop env kp data 0) as [[e|[]] W].
      * cbn [snd].
        rewrite !submissions_app, !sendResults_app, !replay_app, Hsub, Hres.
        repeat split.
      * change (finalize env (withProgramPath view path) kp) with (finalize env view kp).
        destruct (finalize_cases env view kp) as [(e & _ & ->)|(h & _ & ->)];
          cbn [snd];
          rewrite !submissions_app, !sendResults_app, !replay_app, Hsub, Hres;
          repeat split.
  - rewrite !deployProgram_rejected; [repeat split | assumption |].
    intros H. apply Hnot, (validated_path view path), H.
Qed.

(** ** The connection *)

Lemma trace_kinds env kp programData offset r evs :
  WriteTrace env kp programData offset r evs ->
  forall endpoint cfg rc, ~ In (EvCreateConnection endpoint cfg rc) evs.
Proof.
  induction 1 as [offset Hge | offset Hlt Hbig | offset e Hlt Hfit Hsend
                 | offset h r evs Hlt Hfit Hsend Hrest IH];
    intros endpoint cfg rc Hin.
  - destruct Hin.
  - destruct Hin.
  - destruct Hin as [H|[]]. discriminate.
  - destruct Hin as [H|[H|Hin]]; [discriminate | discriminate |].
    apply (IH _ _ _ Hin).
Qed.

(** X14. A run connects at most once, and only to devnet: any connection
    it creates is to https://api.devnet.solana.com, with the configuration
    values of the closure, the MEDIUM fee level, silent mode off and the
    devnet flag on, and it is created before anything is asked of the
    ledger. The mainnet endpoint is never used. *)
Theorem connects_once_to_devnet
    (env : Env) (view : DeployView)
    (endpoint : string) (cfg : FireblocksConnectionAdapterConfig) (rc : Result Connection) :
  In (EvCreateConnection endpoint cfg rc) (snd (deployProgram env view)) ->
  endpoint = "https://api.devnet.solana.com"
  /\ cfg = {| cfgApiKey := stringOf (apiKey view);
              cfgApiSecretPath := stringOf (apiSecretPath view);
              cfgVaultAccountId := stringOf (vaultAccountId view);
              cfgFeeLevel := MEDIUM;
              cfgSilent := false;
              cfgDevnet := true |}
  /\ rc = connectionOf env view
  /\ validated view
  /\ exists post,
       snd (deployProgram env view)
       = [ EvUpdate (SetTo resetStatus);
           EvUpdate (AppendLog "Configuring Fireblocks connection...");
           EvUpdate (AppendLog "Creating connection to Solana devnet...");
           EvCreateConnection endpoint cfg rc ] ++ post
       /\ forall endpoint' cfg' rc', ~ In (EvCreateConnection endpoint' cfg' rc') post.
Proof.
  intros Hin.
  destruct (deployProgram_outcome env view) as [_ Hout].
  destruct (prepare_shape env view) as (rest & Hshape & Hquiet).
  assert (Hrest : forall endpoint' cfg' rc', ~ In (EvCreateConnection endpoint' cfg' rc') rest).
  { intros endpoint' cfg' rc' H. rewrite Forall_forall in Hquiet.
    apply (Hquiet _ H). }
  assert (Hcatch : forall e endpoint' cfg' rc',
             ~ In (EvCreateConnection endpoint' cfg' rc') (catchEvents view e)).
  { intros e endpoint' cfg' rc' [H|[H|[H|[]]]]; discriminate. }
  assert (Hmain : forall R,
             (forall endpoint' cfg' rc', ~ In (EvCreateConnection endpoint' cfg' rc') R) ->
             validated view ->
             In (EvCreateConnection endpoint cfg rc) (snd (prepare env view) ++ R) ->
             endpoint = "https://api.devnet.solana.com"
             /\ cfg = connectionConfig view
             /\ rc = connectionOf env view
             /\ validated view
             /\ exists post,
                  snd (prepare env view) ++ R
                  = [ EvUpdate (SetTo resetStatus);
                      EvUpdate (AppendLog "Configuring Fireblocks connection...");
                      EvUpdate (AppendLog "Creating connection to Solana devnet...");
                      EvCreateConnection endpoint cfg rc ] ++ post
                  /\ forall endpoint' cfg' rc',
                       ~ In (EvCreateConnection endpoint' cfg' rc') post).
  { intros R HR Hval HinR. rewrite Hshape in HinR |- *.
    assert (Heq : EvCreateConnection endpoint cfg rc
                  = EvCreateConnection "https://api.devnet.solana.com"
                      (connectionConfig view) (connectionOf env view)).
    { destruct HinR as [H|[H|[H|[H|HinR]]]]; try discriminate.
      - symmetry. exact H.
      - apply in_app_or in HinR. destruct HinR as [HinR|HinR];
          [destruct (Hrest _ _ _ HinR) | destruct (HR _ _ _ HinR)]. }
    injection Heq as -> -> ->.
    split; [reflexivity|]. split; [reflexivity|]. split; [reflexivity|].
    split; [assumption|].
    exists (rest ++ R). split; [reflexivity|].
    intros endpoint' cfg' rc' H. apply in_app_or in H.
    destruct H as [H|H]; [apply (Hrest _ _ _ H) | apply (HR _ _ _ H)]. }
  destruct Hout as [Hnot | e P Hval HP | kp programData P W e Hval HP HW
                   | kp programData P W e Hval HP HW Hsend
                   | kp programData P W h Hval HP HW Hsend];
    try (replace P with (snd (prepare env view)) in * by (rewrite HP; reflexivity)).
  - destruct Hin as [H|[]]. discriminate.
  - apply Hmain; [exact (Hcatch e) | assumption | assumption].
  - apply Hmain; [|assumption | assumption].
    intros endpoint' cfg' rc' H. apply in_app_or in H. destruct H as [H|H];
      [apply (@trace_kinds _ _ _ _ _ _ HW _ _ _ H) | apply (Hcatch _ _ _ _ H)].
  - apply Hmain; [|assumption | assumption].
    intros endpoint' cfg' rc' H. apply in_app_or in H. destruct H as [H|H];
      [apply (@trace_kinds _ _ _ _ _ _ HW _ _ _ H)|].
    apply in_app_or in H. destruct H as [H|H]; [|apply (Hcatch _ _ _ _ H)].
    destruct H as [H|[H|[]]]; discriminate.
  - apply Hmain; [|assumption | assumption].
    intros endpoint' cfg' rc' H. apply in_app_or in H. destruct H as [H|H];
      [apply (@trace_kinds _ _ _ _ _ _ HW _ _ _ H)|].
    destruct H as [H|[H|[H|[H|[H|[]]]]]]; discriminate.
Qed.

Lemma connects_once_to_devnet_witness :
  validated (viewOf (Some (blob 1)))
  /\ exists post,
       snd (deployProgram confirmingEnv (viewOf (Some (blob 1))))
       = [ EvUpdate (SetTo resetStatus);
           EvUpdate (AppendLog "Configuring Fireblocks connection...");
           EvUpdate (AppendLog "Creating connection to Solana devnet...");
           EvCreateConnection "https://api.devnet.solana.com"
             (connectionConfig (viewOf (Some (blob 1))))
             (inr {| getAccount := vaultAddress |}) ] ++ post
       /\ forall endpoint' cfg' rc', ~ In (EvCreateConnection endpoint' cfg' rc') post.
Proof.
  destruct (@connects_once_to_devnet confirmingEnv (viewOf (Some (blob 1)))
              "https://api.devnet.solana.com"
              (connectionConfig (viewOf (Some (blob 1))))
              (inr {| getAccount := vaultAddress |}))
    as (_ & _ & _ & Hval & Hpost).
  - vm_compute. do 3 right. left. reflexivity.
  - split; [exact Hval | exact Hpost].
Defined.

(** ** The form and the input check *)

Lemma lastLoaded_some (actions : list Form.Action) (bytes : Buffer.t) :
  Form.lastLoaded actions (Some bytes) <> None.
Proof.
  revert bytes. induction actions as [|a actions IH]; intros bytes; [discriminate|].
  destruct a as [files|file [result|]|text]; cbn [Form.lastLoaded]; apply IH.
Qed.

Lemma lastLoaded_none (actions : list Form.Action) :
  Form.lastLoaded actions None <> None
  <-> exists file bytes, In (Form.Loaded file (Some bytes)) actions.
Proof.
  induction actions as [|a actions IH].
  - split; [intros H; destruct (H eq_refl) | intros (file & bytes & [])].
  - destruct a as [files|file [result|]|text]; cbn [Form.lastLoaded].
    + rewrite IH. split.
      * intros (file & bytes & Hin). exists file, bytes. right. assumption.
      * intros (file & bytes & [H|Hin]); [discriminate | exists file, bytes; assumption].
    + split.
      * intros _. exists file, result. left. reflexivity.
      * intros _. apply lastLoaded_some.
    + rewrite IH. split.
      * intros (file' & bytes & Hin). exists file', bytes. right. assumption.
      * intros (file' & bytes & [H|Hin]); [discriminate | exists file', bytes; assumption].
    + rewrite IH. split.
      * intros (file & bytes & Hin). exists file, bytes. right. assumption.
      * intros (file & bytes & [H|Hin]); [discriminate | exists file, bytes; assumption].
Qed.

(** The program data of the form is that of the last load that gave a
    result; selecting files and typing in the path field leave it alone. *)
Lemma run_programData (actions : list Form.Action) (st : Form.t) :
  Form.programData (Form.run actions st)
  = Form.lastLoaded actions (Form.programData st).
Proof.
  revert st. induction actions as [|a actions IH]; intros st; [reflexivity|].
  unfold Form.run in *. cbn [fold_left]. rewrite IH.
  destruct a as [[[|file files]|]|file [result|]|text]; reflexivity.
Qed.

(** X15. Once a file has been loaded, nothing that happens to the form
    (selecting other files, loads that give no result, typing in the path
    field) clears the program data. *)
Theorem loaded_data_is_never_cleared (actions : list Form.Action) (st : Form.t) :
  Form.programData st <> None ->
  Form.programData (Form.run actions st) <> None.
Proof.
  intros Hsome. rewrite run_programData.
  destruct (Form.programData st) as [bytes|]; [apply lastLoaded_some | contradiction].
Qed.

Lemma loaded_data_is_never_cleared_witness :
  Form.programData
    (Form.run [ Form.FileChange (Some [ {| Form.name := "other.so" |} ]);
                Form.Loaded {| Form.name := "other.so" |} None;
                Form.PathTyped "" ]
       (fst (Form.onload {| Form.name := "program.so" |} (Some (blob 3)) Form.initial)))
  <> None.
Proof.
  apply loaded_data_is_never_cleared. cbn. discriminate.
Defined.

(** X16. Starting from the initial form, the input check of [deployProgram]
    passes exactly when the three configuration values are non-empty and
    the load of some file has given a result; selecting a file or typing a
    path is not enough, and the content of the file does not matter (an
    empty file passes). *)
Theorem input_check_passes_iff_a_file_was_loaded
    (key secretPath vaultId : option string)
    (actions : list Form.Action) (st : DeploymentStatus) :
  validated (viewOfForm key secretPath vaultId (Form.run actions Form.initial) st)
  <-> (falsy key = false /\ falsy secretPath = false /\ falsy vaultId = false
       /\ exists file bytes, In (Form.Loaded file (Some bytes)) actions).
Proof.
  unfold validated, viewOfForm.
  cbn [apiKey apiSecretPath vaultAccountId programData].
  rewrite run_programData. cbn [Form.programData Form.initial].
  rewrite <- lastLoaded_none.
  destruct (Form.lastLoaded actions None); cbn [isNull]; intuition congruence.
Qed.




(** ** The account address *)

Lemma SYSVAR_RENT_wellFormed : wellFormed (toBase58 SYSVAR_RENT) = true.
Proof. vm_compute. reflexivity. Qed.

Lemma prepare_malformed (env : Env) (view : DeployView) (connection : Connection) :
  connectionOf env view = inr connection ->
  wellFormed (getAccount connection) = false ->
  prepare env view
  = (inl (publicKeyErrorText env (getAccount connection)),
     [ EvUpdate (SetTo resetStatus);
       EvUpdate (AppendLog "Configuring Fireblocks connection...");
       EvUpdate (AppendLog "Creating connection to Solana devnet...");
       EvCreateConnection "https://api.devnet.solana.com" (connectionConfig view)
         (inr connection) ]).
Proof.
  unfold prepare, connectionOf. run_monad. cbn [isDevnet].
  intros Hconn Hwell. rewrite Hconn. cbn [app fst snd]. rewrite Hwell. reflexivity.
Qed.

(** X18. An account text that is not a well-formed address ends the run
    right after the connection: the PublicKey constructor throws inside the
    [try] block, so nothing is logged about the deployer account, nothing
    is asked of the ledger, no transaction is submitted, and the status is
    the error state with the text the constructor threw. *)
Theorem malformed_address_ends_the_run
    (env : Env) (view : DeployView) (init : DeploymentStatus) (connection : Connection) :
  validated view ->
  connectionOf env view = inr connection ->
  wellFormed (getAccount connection) = false ->
  snd (deployProgram env view)
  = [ EvUpdate (SetTo resetStatus);
      EvUpdate (AppendLog "Configuring Fireblocks connection...");
      EvUpdate (AppendLog "Creating connection to Solana devnet...");
      EvCreateConnection "https://api.devnet.solana.com" (connectionConfig view)
        (inr connection);
      EvConsoleError (publicKeyErrorText env (getAccount connection));
      EvUpdate (SetTo (errorStatus view (publicKeyErrorText env (getAccount connection))));
      EvToast (failedToast (publicKeyErrorText env (getAccount connection))) ]
  /\ submissions (snd (deployProgram env view)) = []
  /\ stateAfter env view init
     = errorStatus view (publicKeyErrorText env (getAccount connection)).
Proof.
  intros Hval Hconn Hwell. unfold stateAfter.
  rewrite (deployProgram_unfold env Hval), (@prepare_malformed env view connection Hconn Hwell).
  repeat split.
Qed.

Lemma malformed_address_ends_the_run_witness :
  wellFormed "VaultPayerAddress" = false
  /\ length (snd (deployProgram malformedEnv (viewOf (Some (blob 1))))) = 7
  /\ stateAfter malformedEnv (viewOf (Some (blob 1))) idleStatus
     = errorStatus (viewOf (Some (blob 1))) "Invalid public key input".
Proof.
  assert (Hwell : wellFormed "VaultPayerAddress" = false) by (vm_compute; reflexivity).
  destruct (@malformed_address_ends_the_run malformedEnv (viewOf (Some (blob 1))) idleStatus
              {| getAccount := "VaultPayerAddress" |})
    as (Hevs & _ & Hstate).
  - vm_compute. repeat split; reflexivity.
  - reflexivity.
  - exact Hwell.
  - split; [exact Hwell|]. split; [rewrite Hevs; reflexivity | exact Hstate].
Defined.
